(** * autogpt/core/runner/server.py: message filters and the in-process mailbox

    A shallow embedding of [MessageFilters] and [FakeApplicationServer].
    Python values are an inductive type, dictionaries are [gmap]s keyed by
    strings, exceptions are a result type, and the methods of the server
    run in a state-and-exception monad over an explicit object store. *)

From Stdlib Require Import ZArith.
From stdpp Require Import base option strings gmap list fin_maps.

Local Open Scope Z_scope.
Local Open Scope string_scope.
Local Open Scope list_scope.

(** ** Python values *)

(** The values a message payload or a metadata entry can hold: the JSON
    values, plus references to opaque objects such as the broker that
    [boostrap_new_agent] puts in the content.  Opaque objects define no
    reflected operators. *)
#[local] Set Warnings "-register-all".
Inductive PyVal : Type :=
  | VNone
  | VBool (b : bool)
  | VInt (n : Z)
  | VFloat (mantissa exponent : Z)
  | VStr (s : string)
  | VList (l : list PyVal)
  | VDict (d : gmap string PyVal)
  | VObj (address : nat).

(** The exceptions the modelled code can raise. *)
Inductive Exn : Type :=
  | KeyError (key : string)
  | TypeError
  | AttributeError (attr : string)
  | IndexError
  | ChannelNotFound (channel_name : string)
  | ChannelAlreadyExists (channel_name : string).

Inductive result (A : Type) : Type :=
  | Ok (a : A)
  | Raise (e : Exn).
Arguments Ok {A} a.
Arguments Raise {A} e.

Definition rbind {A B} (r : result A) (k : A -> result B) : result B :=
  match r with
  | Ok a => k a
  | Raise e => Raise e
  end.

Declare Scope result_scope.
Delimit Scope result_scope with result.
Notation "x <~ c1 ;; c2" := (rbind c1 (fun x => c2))
  (at level 100, c1 at next level, right associativity) : result_scope.

(** [d[k]] on a plain [dict]. *)
Definition dict_getitem (d : gmap string PyVal) (k : string) : result PyVal :=
  match d !! k with
  | Some v => Ok v
  | None => Raise (KeyError k)
  end.

(** [{**first, **second}]: each operand must be a mapping; the entries
    of [second] win where both bind a key. *)
Definition dict_unpack2 (first second : PyVal) : result (gmap string PyVal) :=
  match first with
  | VDict d1 =>
      match second with
      | VDict d2 => Ok (d2 ∪ d1)
      | _ => Raise TypeError
      end
  | _ => Raise TypeError
  end.

(** [b & v] with a [bool] on the left: [bool.__and__] answers for [bool]
    and [int] operands; for every other operand it returns
    [NotImplemented], no reflected [__rand__] accepts a [bool], and the
    interpreter raises [TypeError]. *)
Definition bool_and (b : bool) (v : PyVal) : result PyVal :=
  match v with
  | VBool c => Ok (VBool (b && c))
  | VInt n => Ok (VInt (Z.land (Z.b2z b) n))
  | _ => Raise TypeError
  end.

(** [v == s] for a string literal [s]: only an equal [str] compares equal. *)
Definition eq_str (v : PyVal) (s : string) : bool :=
  match v with
  | VStr t => bool_decide (t = s)
  | _ => false
  end.

(** ** Messages *)

(** Modelled from the spec: the declarations of [Role], [Sender],
    [MessageMetadata] and [Message] live in [autogpt.core.messaging.simple],
    which is not part of the sources; section 3 of the specification gives
    the three roles and the fields used here. *)
Inductive Role : Type := USER | AGENT | AGENT_FACTORY.

Global Instance Role_eq_dec : EqDecision Role.
Proof. solve_decision. Defined.

Record Sender : Type := mkSender {
  name : string;
  role : Role
}.

Record MessageMetadata : Type := mkMetadata {
  sender : Sender;
  additional_metadata : gmap string PyVal
}.

Record Message : Type := mkMessage {
  content : gmap string PyVal;
  metadata : MessageMetadata
}.

(** ** MessageFilters *)

Module MessageFilters.

Definition is_user_message (message : Message) : bool :=
  let metadata := metadata message in
  bool_decide (role (sender metadata) = USER).

Definition is_agent_message (message : Message) : bool :=
  let metadata := metadata message in
  bool_decide (role (sender metadata) = AGENT).

Definition is_agent_factory_message (message : Message) : bool :=
  let metadata := metadata message in
  bool_decide (role (sender metadata) = AGENT_FACTORY).

(** [bool | bool] is the boolean disjunction. *)
Definition is_server_message (message : Message) : bool :=
  is_agent_message message || is_agent_factory_message message.

(** [&] binds tighter than [==], so the returned expression is
    [(is_user_message(message) & additional_metadata["instruction"])
     == "bootstrap_agent"]: both operands of [&] are evaluated, left to
    right, then [&], then the comparison. *)
Definition is_user_bootstrap_message (message : Message) : result bool :=
  let metadata := metadata message in
  let lhs := is_user_message message in
  (instruction <~ dict_getitem (additional_metadata metadata) "instruction" ;;
   conj <~ bool_and lhs instruction ;;
   Ok (eq_str conj "bootstrap_agent"))%result.

Definition is_user_launch_message (message : Message) : result bool :=
  let metadata := metadata message in
  let lhs := is_user_message message in
  (instruction <~ dict_getitem (additional_metadata metadata) "instruction" ;;
   conj <~ bool_and lhs instruction ;;
   Ok (eq_str conj "launch_agent"))%result.

End MessageFilters.

(** The message [boostrap_new_agent] has the user emitter send, and the
    matching one for a launch; a message with no metadata entries. *)
Definition user_bootstrap_request : Message :=
  mkMessage ∅ (mkMetadata (mkSender "autogpt-user" USER)
                          {["instruction" := VStr "bootstrap_agent"]}).

Definition user_launch_request : Message :=
  mkMessage ∅ (mkMetadata (mkSender "autogpt-user" USER)
                          {["instruction" := VStr "launch_agent"]}).

Definition bare_user_message : Message :=
  mkMessage ∅ (mkMetadata (mkSender "autogpt-user" USER) ∅).

(** ** The object store *)

(** What a registered listener calls: the bound method
    [self._add_to_queue] of a server instance, or a callable imported from
    a module outside this file ([agent_factory_context.bootstrap_agent],
    [agent_context.launch_agent]). *)
Inductive Handler : Type :=
  | HAddToQueue (self : nat)
  | HExternal (qualname : string).

Record Listener : Type := mkListener {
  listener : Handler;
  message_filter : Message -> result bool
}.

(** Objects are held by address.  A [defaultdict(list)] maps each key to
    the address of its list, so that two names for one list see the same
    appends and a replaced list survives under its old address. *)
Inductive Obj : Type :=
  | OList (items : list Message)
  | ODefaultDict (slots : gmap string nat)
  | OMsgDict (entries : gmap string Message)
  | OInstance (attrs : gmap string PyVal)
  | OObject
  | OBroker (channels : gmap string (list Listener))
  | OEmitter (broker : nat) (channel : string) (bound_sender : Sender).

Record World : Type := mkWorld {
  heap : gmap nat Obj;
  class_dict : gmap string PyVal
}.

Definition set_heap (f : gmap nat Obj -> gmap nat Obj) (w : World) : World :=
  {| heap := f (heap w); class_dict := class_dict w |}.

(** Computations: the store is threaded through, and an exception leaves
    the store as it was when it was raised. *)
Definition M (A : Type) : Type := World -> result A * World.

Definition ret {A} (a : A) : M A := fun w => (Ok a, w).

Definition raise {A} (e : Exn) : M A := fun w => (Raise e, w).

Definition lift {A} (r : result A) : M A := fun w => (r, w).

Definition bind {A B} (c : M A) (k : A -> M B) : M B := fun w =>
  match c w with
  | (Ok a, w') => k a w'
  | (Raise e, w') => (Raise e, w')
  end.

Declare Scope py_scope.
Delimit Scope py_scope with py.
Notation "x <- c1 ;; c2" := (bind c1 (fun x => c2))
  (at level 100, c1 at next level, right associativity) : py_scope.
Notation "c1 ;; c2" := (bind c1 (fun _ => c2))
  (at level 100, right associativity) : py_scope.
Local Open Scope py_scope.

(** A new object gets an address no live object has. *)
Definition alloc (o : Obj) : M nat := fun w =>
  let a := fresh (dom (heap w)) in
  (Ok a, set_heap <[a := o]> w).

(** [obj.attr]: the instance's own [__dict__] first, then the class. *)
Definition getattr (obj : nat) (attr : string) : M PyVal := fun w =>
  match heap w !! obj with
  | Some (OInstance attrs) =>
      match attrs !! attr with
      | Some v => (Ok v, w)
      | None =>
          match class_dict w !! attr with
          | Some v => (Ok v, w)
          | None => (Raise (AttributeError attr), w)
          end
      end
  | _ => (Raise (AttributeError attr), w)
  end.

(** [obj.attr = v]: stored in the instance's [__dict__]; a bare
    [object()] has none and rejects the assignment. *)
Definition setattr (obj : nat) (attr : string) (v : PyVal) : M unit := fun w =>
  match heap w !! obj with
  | Some (OInstance attrs) =>
      (Ok tt, set_heap <[obj := OInstance (<[attr := v]> attrs)]> w)
  | _ => (Raise (AttributeError attr), w)
  end.

(** [d[k]] on a [defaultdict(list)]: a missing key is first bound to a
    new empty list. *)
Definition defaultdict_getitem (d : PyVal) (k : string) : M nat := fun w =>
  match d with
  | VObj a =>
      match heap w !! a with
      | Some (ODefaultDict slots) =>
          match slots !! k with
          | Some l => (Ok l, w)
          | None =>
              let l := fresh (dom (heap w)) in
              (Ok l, set_heap (fun h => <[a := ODefaultDict (<[k := l]> slots)]>
                                          (<[l := OList []]> h)) w)
          end
      | _ => (Raise TypeError, w)
      end
  | _ => (Raise TypeError, w)
  end.

(** [d[k] = l]. *)
Definition defaultdict_setitem (d : PyVal) (k : string) (l : nat) : M unit := fun w =>
  match d with
  | VObj a =>
      match heap w !! a with
      | Some (ODefaultDict slots) =>
          (Ok tt, set_heap <[a := ODefaultDict (<[k := l]> slots)]> w)
      | _ => (Raise TypeError, w)
      end
  | _ => (Raise TypeError, w)
  end.

(** [l.append(x)] mutates the list object in place. *)
Definition list_append (l : nat) (x : Message) : M unit := fun w =>
  match heap w !! l with
  | Some (OList items) => (Ok tt, set_heap <[l := OList (items ++ [x])]> w)
  | _ => (Raise (AttributeError "append"), w)
  end.

(** [l.pop()] removes and returns the last item; [IndexError] on an empty
    list. *)
Definition list_pop (l : nat) : M Message := fun w =>
  match heap w !! l with
  | Some (OList items) =>
      match last items with
      | Some x => (Ok x, set_heap <[l := OList (removelast items)]> w)
      | None => (Raise IndexError, w)
      end
  | _ => (Raise (AttributeError "pop"), w)
  end.

(** ** FakeApplicationServer: the mailbox *)

(** Line 65, run once when the class body is executed:
    [message_queue = defaultdict(list)] binds a class attribute. *)
Definition class_body : M unit := fun w =>
  let a := fresh (dom (heap w)) in
  (Ok tt, {| heap := <[a := ODefaultDict ∅]> (heap w);
             class_dict := <["message_queue" := VObj a]> (class_dict w) |}).

Definition empty_world : World := {| heap := ∅; class_dict := ∅ |}.

(** The expression [self.message_queue[key]]. *)
Definition queue_ref (self : nat) (key : string) : M nat :=
  message_queue <- getattr self "message_queue" ;;
  defaultdict_getitem message_queue key.

(** The statement [self.message_queue[key] = []]: the right-hand side is
    evaluated first. *)
Definition reset_queue (self : nat) (key : string) : M unit :=
  empty_list <- alloc (OList []) ;;
  message_queue <- getattr self "message_queue" ;;
  defaultdict_setitem message_queue key empty_list.

Definition _add_to_queue (self : nat) (message : Message) : M unit :=
  queue <- queue_ref self (name (sender (metadata message))) ;;
  list_append queue message.

(** Lines 133 and 134 of [boostrap_new_agent], with the key as a
    parameter: the list bound to the key is taken and the key is rebound
    to a new empty list. *)
Definition drain (self : nat) (sender_name : string) : M nat :=
  responses <- queue_ref self sender_name ;;
  reset_queue self sender_name ;;
  ret responses.

(** ** The broker *)

(** Modelled from the spec: [SimpleMessageBroker] and its emitters are
    imported from [autogpt.core.messaging.simple], which is not part of
    the sources.  Sections 4.2 and 4.3 of the specification give the
    operations: a channel is created empty and must exist before a
    listener registers or a message is published ([ChannelNotFound]
    otherwise, [ChannelAlreadyExists] for a second creation);
    registrations are kept in registration order; [publish] evaluates each
    listener's filter on the message and invokes the handlers of those
    that match, in registration order; a filter that fails counts as not
    matching and a handler that fails does not stop the dispatch. *)
Definition SimpleMessageBroker : M nat := alloc (OBroker ∅).

Definition create_message_channel (broker : nat) (channel_name : string)
  : M unit := fun w =>
  match heap w !! broker with
  | Some (OBroker channels) =>
      match channels !! channel_name with
      | Some _ => (Raise (ChannelAlreadyExists channel_name), w)
      | None =>
          (Ok tt, set_heap <[broker := OBroker (<[channel_name := []]> channels)]> w)
      end
  | _ => (Raise (AttributeError "create_message_channel"), w)
  end.

Definition register_listener (broker : nat) (message_channel : string)
    (handler : Handler) (filter : Message -> result bool) : M unit := fun w =>
  match heap w !! broker with
  | Some (OBroker channels) =>
      match channels !! message_channel with
      | Some listeners =>
          (Ok tt,
           set_heap <[broker := OBroker (<[message_channel :=
                        (listeners ++ [mkListener handler filter])%list]> channels)]> w)
      | None => (Raise (ChannelNotFound message_channel), w)
      end
  | _ => (Raise (AttributeError "register_listener"), w)
  end.

Definition get_emitter (broker : nat) (channel_name sender_name : string)
    (sender_role : Role) : M nat := fun w =>
  match heap w !! broker with
  | Some (OBroker channels) =>
      match channels !! channel_name with
      | Some _ => alloc (OEmitter broker channel_name (mkSender sender_name sender_role)) w
      | None => (Raise (ChannelNotFound channel_name), w)
      end
  | _ => (Raise (AttributeError "get_emitter"), w)
  end.

(** A failure inside one handler is contained; what the handler did to
    the store before failing stays done. *)
Definition isolated (c : M unit) : M unit := fun w => (Ok tt, snd (c w)).

Section Dispatch.

(** The listeners imported from other modules, by qualified name. *)
Variable external : string -> Message -> M unit.

Definition invoke (h : Handler) (message : Message) : M unit :=
  match h with
  | HAddToQueue self => _add_to_queue self message
  | HExternal qualname => external qualname message
  end.

Fixpoint dispatch (listeners : list Listener) (message : Message) : M unit :=
  match listeners with
  | [] => ret tt
  | l :: rest =>
      match message_filter l message with
      | Ok true => isolated (invoke (listener l) message)
      | _ => ret tt
      end ;;
      dispatch rest message
  end.

Definition publish (broker : nat) (channel : string) (message : Message)
  : M bool := fun w =>
  match heap w !! broker with
  | Some (OBroker channels) =>
      match channels !! channel with
      | Some listeners => (dispatch listeners message ;; ret true) w
      | None => (Raise (ChannelNotFound channel), w)
      end
  | _ => (Raise (AttributeError "publish"), w)
  end.

Definition send_message (emitter : PyVal) (content additional : gmap string PyVal)
  : M bool := fun w =>
  match emitter with
  | VObj e =>
      match heap w !! e with
      | Some (OEmitter broker channel bound) =>
          publish broker channel (mkMessage content (mkMetadata bound additional)) w
      | _ => (Raise (AttributeError "send_message"), w)
      end
  | _ => (Raise (AttributeError "send_message"), w)
  end.

(** Modelled from the spec: the scenario of section 8, run for the
    mailbox of the server [self]. *)
Definition mailbox_scenario (self : nat) : M nat :=
  broker <- SimpleMessageBroker ;;
  create_message_channel broker "autogpt" ;;
  register_listener broker "autogpt" (HAddToQueue self)
    (fun m => Ok (MessageFilters.is_server_message m)) ;;
  emitter <- get_emitter broker "autogpt" "autogpt-agent-factory" AGENT_FACTORY ;;
  send_message (VObj emitter) {["result" := VStr "ok"]} ∅ ;;
  drain self "autogpt-agent-factory".

(** ** FakeApplicationServer: the request methods *)

(** The request handed to the server methods: only [request.json] is
    read. *)
Record Request : Type := mkRequest { json : gmap string PyVal }.

Definition _send_message (self : nat) (request : Request)
    (extra_content extra_metadata : PyVal) : M nat :=
  content <- lift (base <~ dict_getitem (json request) "content" ;;
                   dict_unpack2 base extra_content)%result ;;
  metadata <- lift (base <~ dict_getitem (json request) "metadata" ;;
                    dict_unpack2 base extra_metadata)%result ;;
  emitter <- getattr self "_user_emitter" ;;
  success <- send_message emitter content metadata ;;
  response <- alloc OObject ;;
  (if (success : bool)
   then setattr response "status_code" (VInt 200)
   else setattr response "status_code" (VInt 500)) ;;
  ret response.

Definition boostrap_new_agent (self : nat) (request : Request) : M nat :=
  message_broker <- getattr self "_message_broker" ;;
  response <- _send_message self request
                (VDict {["message_broker" := message_broker]})
                (VDict {["instruction" := VStr "bootstrap_agent"]}) ;;
  agent_factory_responses <- drain self "autogpt-agent-factory" ;;
  setattr response "json" (VObj agent_factory_responses) ;;
  ret response.

(** The parameters [extra_content] and [extra_metadata] default to
    [None]. *)
Definition launch_agent (self : nat) (request : Request) : M nat :=
  _send_message self request VNone VNone.

(** The body ends without a [return]: the value is [None]. *)
Definition give_agent_feedback (self : nat) (request : Request) : M PyVal :=
  response <- _send_message self request VNone VNone ;;
  queue <- queue_ref self "autogpt-agent" ;;
  popped <- list_pop queue ;;
  body <- alloc (OMsgDict {["content" := popped]}) ;;
  setattr response "json" (VObj body) ;;
  ret VNone.

End Dispatch.

(** ** FakeApplicationServer: construction *)

Definition _get_message_broker (self : nat) : M nat :=
  let message_channel_name := "autogpt" in
  message_broker <- SimpleMessageBroker ;;
  create_message_channel message_broker message_channel_name ;;
  register_listener message_broker "autogpt" (HAddToQueue self)
    (fun m => Ok (MessageFilters.is_server_message m)) ;;
  register_listener message_broker "autogpt"
    (HExternal "agent_factory_context.bootstrap_agent")
    MessageFilters.is_user_bootstrap_message ;;
  register_listener message_broker "autogpt"
    (HExternal "agent_context.launch_agent")
    MessageFilters.is_user_launch_message ;;
  ret message_broker.

Definition __init__ (self : nat) : M unit :=
  message_broker <- _get_message_broker self ;;
  setattr self "_message_broker" (VObj message_broker) ;;
  broker <- getattr self "_message_broker" ;;
  match broker with
  | VObj b =>
      emitter <- get_emitter b "autogpt" "autogpt-user" USER ;;
      setattr self "_user_emitter" (VObj emitter)
  | _ => raise (AttributeError "get_emitter")
  end.

(** [FakeApplicationServer()]: a new instance with an empty [__dict__],
    then [__init__]. *)
Definition FakeApplicationServer : M nat :=
  self <- alloc (OInstance ∅) ;;
  __init__ self ;;
  ret self.

(** ** Observations and the mailbox invariant *)

(** The items of the list object at an address. *)
Definition list_at (w : World) (l : nat) : option (list Message) :=
  match heap w !! l with
  | Some (OList items) => Some items
  | _ => None
  end.

(** What a [defaultdict(list)] value holds under a key, without binding
    the key: the items of the list bound to it, nothing if it is unbound. *)
Definition peek (d : PyVal) (k : string) (w : World) : list Message :=
  match d with
  | VObj a =>
      match heap w !! a with
      | Some (ODefaultDict slots) =>
          match slots !! k with
          | Some l => default [] (list_at w l)
          | None => []
          end
      | _ => []
      end
  | _ => []
  end.

(** The queue of a sender name, read through the class:
    [FakeApplicationServer.message_queue]. *)
Definition queue_at (w : World) (k : string) : list Message :=
  match class_dict w !! "message_queue" with
  | Some d => peek d k w
  | None => []
  end.

(** The same queue read through an instance: [self.message_queue]. *)
Definition queue_via (self : nat) (w : World) (k : string)
  : option (list Message) :=
  match getattr self "message_queue" w with
  | (Ok d, w') => Some (peek d k w')
  | (Raise _, _) => None
  end.

Definition is_server (w : World) (self : nat) : Prop :=
  exists attrs, heap w !! self = Some (OInstance attrs).

(** The class attribute is bound to a [defaultdict] whose keys are bound
    to pairwise distinct list objects, and no instance has an attribute
    [message_queue] of its own. *)
Record mailbox_ok (w : World) : Prop := mkMailboxOk {
  mailbox_bound :
    exists a slots,
      class_dict w !! "message_queue" = Some (VObj a) /\
      heap w !! a = Some (ODefaultDict slots) /\
      (forall k l, slots !! k = Some l ->
                   exists items, heap w !! l = Some (OList items)) /\
      (forall k1 k2 l, slots !! k1 = Some l -> slots !! k2 = Some l -> k1 = k2);
  mailbox_not_shadowed :
    forall s attrs, heap w !! s = Some (OInstance attrs) ->
                    attrs !! "message_queue" = None
}.

(** The address of the list object the class-level [message_queue] binds
    a key to, if it binds it. *)
Definition binding (w : World) (k : string) : option nat :=
  match class_dict w !! "message_queue" with
  | Some (VObj a) =>
      match heap w !! a with
      | Some (ODefaultDict slots) => slots !! k
      | _ => None
      end
  | _ => None
  end.

Definition bound (w : World) (k : string) (l : nat) : Prop :=
  binding w k = Some l.

(** The objects a mailbox is made of. *)
Definition mailbox_object (o : Obj) : Prop :=
  match o with
  | OList _ | ODefaultDict _ => True
  | _ => False
  end.

(** Every object that is not part of a mailbox is the same in both
    stores, and so are the class attributes. *)
Definition keeps (w w' : World) : Prop :=
  class_dict w' = class_dict w /\
  forall a o, heap w !! a = Some o -> ~ mailbox_object o -> heap w' !! a = Some o.

(** The stores the program can be in: the class body has run, then
    servers are constructed, messages are delivered to [_add_to_queue] and
    queues are drained, in any order. *)
Inductive reachable : World -> Prop :=
  | reach_class_body : reachable (snd (class_body empty_world))
  | reach_construct w :
      reachable w -> reachable (snd (FakeApplicationServer w))
  | reach_add_to_queue w self message :
      reachable w -> reachable (snd (_add_to_queue self message w))
  | reach_drain w self sender_name :
      reachable w -> reachable (snd (drain self sender_name w)).

(** ** Successive deliveries and the feedback expression *)

(** The mailbox listener called on each message of a sequence in turn,
    as it is on successive publications. *)
Fixpoint deliver (self : nat) (messages : list Message) : M unit :=
  match messages with
  | [] => ret tt
  | message :: rest => _add_to_queue self message ;; deliver self rest
  end.

(** The expression [self.message_queue["autogpt-agent"].pop()] of
    [give_agent_feedback]. *)
Definition pop_agent_message (self : nat) : M Message :=
  queue <- queue_ref self "autogpt-agent" ;;
  list_pop queue.

(** The listeners [_get_message_broker] registers on ["autogpt"], in
    the order of the three calls. *)
Definition server_listeners (self : nat) : list Listener :=
  [ mkListener (HAddToQueue self)
      (fun m => Ok (MessageFilters.is_server_message m));
    mkListener (HExternal "agent_factory_context.bootstrap_agent")
      MessageFilters.is_user_bootstrap_message;
    mkListener (HExternal "agent_context.launch_agent")
      MessageFilters.is_user_launch_message ].

(** ** The module-level functions *)

(** The f-string writes a [str] argument as it is. *)
Definition _get_workspace_path_from_agent_name (agent_name : string) : string :=
  String.append "~/autogpt_workspace/" agent_name.

(** ** Sample stores and messages *)

(** The store after the module has been loaded with one server, and with
    a second one; the first server is at address 1, the second at 4. *)
Definition world_one_server : World :=
  snd (FakeApplicationServer (snd (class_body empty_world))).

Definition world_two_servers : World :=
  snd (FakeApplicationServer world_one_server).

Definition factory_reply (n : Z) : Message :=
  mkMessage {["result" := VInt n]}
            (mkMetadata (mkSender "autogpt-agent-factory" AGENT_FACTORY) ∅).

Definition agent_note (n : Z) : Message :=
  mkMessage {["note" := VInt n]}
            (mkMetadata (mkSender "autogpt-agent" AGENT) ∅).

(** A store whose queue for ["autogpt-agent"] holds two notes. *)
Definition world_two_notes : World :=
  snd (_add_to_queue 1 (agent_note 2)
         (snd (_add_to_queue 1 (agent_note 1) world_one_server))).

(** A stand-in for the imported listeners: one that does nothing. *)
Definition idle_listener : string -> Message -> M unit := fun _ _ => ret tt.

Definition plain_request : Request :=
  mkRequest {["content" := VDict ∅; "metadata" := VDict ∅]}.

(** * Properties *)

(** ** The filters *)

Section Filters.

Import MessageFilters.

Implicit Types (m : Message) (v : PyVal).

Lemma eq_str_after_and b v r s : bool_and b v = Ok r -> eq_str r s = false.
Proof. destruct v; simpl; intros [= <-]; reflexivity. Qed.

(** Whatever the message, the bootstrap filter never answers [True]. *)
Lemma is_user_bootstrap_message_never_true m :
  is_user_bootstrap_message m <> Ok true.
Proof.
  unfold is_user_bootstrap_message, dict_getitem, rbind.
  destruct (additional_metadata (metadata m) !! "instruction") as [v|]; [|discriminate].
  destruct (bool_and _ v) as [r|e] eqn:E; [|discriminate].
  rewrite (eq_str_after_and _ _ _ _ E). discriminate.
Qed.

Lemma is_user_launch_message_never_true m :
  is_user_launch_message m <> Ok true.
Proof.
  unfold is_user_launch_message, dict_getitem, rbind.
  destruct (additional_metadata (metadata m) !! "instruction") as [v|]; [|discriminate].
  destruct (bool_and _ v) as [r|e] eqn:E; [|discriminate].
  rewrite (eq_str_after_and _ _ _ _ E). discriminate.
Qed.

(** X3: with a string under ["instruction"], for a sender of any role
    and any string, both filters raise [TypeError]: they stop at the [&]. *)
Lemma filters_on_str_instruction m s :
  additional_metadata (metadata m) !! "instruction" = Some (VStr s) ->
  is_user_bootstrap_message m = Raise TypeError /\
  is_user_launch_message m = Raise TypeError.
Proof.
  intros H. unfold is_user_bootstrap_message, is_user_launch_message, dict_getitem.
  rewrite H. split; reflexivity.
Qed.

(** C1, as stated, does not hold: a message without the key
    ["instruction"] is not answered with [False]. *)
Lemma missing_instruction_not_false :
  ~ (forall m, additional_metadata (metadata m) !! "instruction" = None ->
               is_user_bootstrap_message m = Ok false /\
               is_user_launch_message m = Ok false).
Proof.
  intros H. destruct (H bare_user_message) as [Hb _]; [reflexivity|].
  discriminate Hb.
Qed.

(** C1, amended: on a message whose [additional_metadata] lacks the key
    ["instruction"], [is_user_bootstrap_message] and
    [is_user_launch_message] each raise [KeyError("instruction")],
    whatever the sender's role. *)
Theorem missing_instruction_raises m :
  additional_metadata (metadata m) !! "instruction" = None ->
  is_user_bootstrap_message m = Raise (KeyError "instruction") /\
  is_user_launch_message m = Raise (KeyError "instruction").
Proof.
  intros H. unfold is_user_bootstrap_message, is_user_launch_message, dict_getitem.
  rewrite H. split; reflexivity.
Qed.

Lemma missing_instruction_raises_witness :
  additional_metadata (metadata bare_user_message) !! "instruction" = None /\
  is_user_bootstrap_message bare_user_message = Raise (KeyError "instruction") /\
  is_user_launch_message bare_user_message = Raise (KeyError "instruction").
Proof.
  split; [reflexivity|].
  apply (missing_instruction_raises bare_user_message). reflexivity.
Defined.

(** C2: on the message of a user with ["instruction"] bound to
    ["bootstrap_agent"], where the filter is meant to answer [True], the
    code raises [TypeError]: the [&] is applied to a [bool] and a [str]
    before the comparison. *)
Theorem is_user_bootstrap_message_on_bootstrap_request :
  is_user_message user_bootstrap_request = true /\
  additional_metadata (metadata user_bootstrap_request) !! "instruction"
    = Some (VStr "bootstrap_agent") /\
  is_user_bootstrap_message user_bootstrap_request = Raise TypeError.
Proof. repeat split. Qed.

(** C3: on the message of a user with ["instruction"] bound to
    ["launch_agent"], where the filter is meant to answer [True], the code
    raises [TypeError]. *)
Theorem is_user_launch_message_on_launch_request :
  is_user_message user_launch_request = true /\
  additional_metadata (metadata user_launch_request) !! "instruction"
    = Some (VStr "launch_agent") /\
  is_user_launch_message user_launch_request = Raise TypeError.
Proof. repeat split. Qed.

(** C4: [is_server_message] answers [True] for a sender whose role is
    [AGENT] or [AGENT_FACTORY] and [False] for a sender whose role is
    [USER]. *)
Theorem is_server_message_by_role m :
  is_server_message m =
    match role (sender (metadata m)) with
    | AGENT | AGENT_FACTORY => true
    | USER => false
    end.
Proof.
  unfold is_server_message, is_agent_message, is_agent_factory_message.
  destruct (role (sender (metadata m))); reflexivity.
Qed.

End Filters.

(** ** The mailbox *)

Implicit Types (w : World) (m : Message) (k : string) (o : Obj).

Lemma bind_ok {A B} (c : M A) (f : A -> M B) w a w' :
  c w = (Ok a, w') -> bind c f w = f a w'.
Proof. unfold bind. intros ->. reflexivity. Qed.

Lemma bind_raise {A B} (c : M A) (f : A -> M B) w e w' :
  c w = (Raise e, w') -> bind c f w = (Raise e, w').
Proof. unfold bind. intros ->. reflexivity. Qed.

Lemma fresh_heap_None w : heap w !! fresh (dom (heap w)) = None.
Proof. apply not_elem_of_dom, is_fresh. Qed.

Lemma keeps_refl w : keeps w w.
Proof. split; auto. Qed.

Lemma keeps_server w w' s : keeps w w' -> is_server w s -> is_server w' s.
Proof.
  intros [_ H] [attrs Hs]. exists attrs. apply H; [done|]. simpl. tauto.
Qed.

Lemma getattr_message_queue w self :
  mailbox_ok w -> is_server w self ->
  exists a, class_dict w !! "message_queue" = Some (VObj a) /\
            getattr self "message_queue" w = (Ok (VObj a), w).
Proof.
  intros [(a & slots & Hc & _) Hns] [attrs Hs]. exists a. split; [done|].
  unfold getattr. rewrite Hs, (Hns _ _ Hs), Hc. reflexivity.
Qed.

(** Where the class attribute is not shadowed, reading the queue through
    an instance and through the class is the same thing. *)
Lemma queue_via_class w self k :
  mailbox_ok w -> is_server w self ->
  queue_via self w k = Some (queue_at w k).
Proof.
  intros Hok Hs. destruct (getattr_message_queue _ _ Hok Hs) as (a & Hc & Hg).
  unfold queue_via, queue_at. rewrite Hg, Hc. reflexivity.
Qed.

(** A store update away from the mailbox objects keeps the invariant and
    every queue. *)
Lemma mailbox_ok_insert w a o :
  mailbox_ok w ->
  (forall o', heap w !! a = Some o' -> ~ mailbox_object o') ->
  ~ mailbox_object o ->
  (forall attrs, o = OInstance attrs -> attrs !! "message_queue" = None) ->
  mailbox_ok (set_heap <[a := o]> w) /\
  forall k, queue_at (set_heap <[a := o]> w) k = queue_at w k.
Proof.
  intros [(a0 & slots & Hc & Ha & Hl & Hinj) Hns] Hold Hnew Hattrs.
  assert (Hne : a <> a0).
  { intros ->. apply (Hold _ Ha). exact I. }
  assert (Hnl : forall k l, slots !! k = Some l -> a <> l).
  { intros k l Hk ->. destruct (Hl _ _ Hk) as [items Hi]. apply (Hold _ Hi). exact I. }
  split; [split|].
  - exists a0, slots. simpl. rewrite lookup_insert_ne by done.
    repeat split; try done.
    intros k l Hk. destruct (Hl _ _ Hk) as [items Hi]. exists items.
    rewrite lookup_insert_ne by eauto. done.
  - intros s attrs. simpl. destruct (decide (a = s)) as [->|Hs].
    + rewrite lookup_insert_eq. intros [= ->]. eauto.
    + rewrite lookup_insert_ne by done. apply Hns.
  - intros k. unfold queue_at. simpl. rewrite Hc. unfold peek. simpl.
    rewrite lookup_insert_ne by done. rewrite Ha.
    destruct (slots !! k) as [l|] eqn:Hk; [|done].
    unfold list_at. simpl. rewrite lookup_insert_ne by eauto. done.
Qed.

Lemma bound_inv w k l :
  bound w k l ->
  exists a slots,
    class_dict w !! "message_queue" = Some (VObj a) /\
    heap w !! a = Some (ODefaultDict slots) /\
    slots !! k = Some l.
Proof.
  unfold bound, binding.
  destruct (class_dict w !! "message_queue") as [[| | | | | | |a]|]; try discriminate.
  destruct (heap w !! a) as [[|slots| | | | |]|] eqn:Ha; try discriminate.
  intros Hk. by exists a, slots.
Qed.

Lemma binding_slots w a slots k :
  class_dict w !! "message_queue" = Some (VObj a) ->
  heap w !! a = Some (ODefaultDict slots) ->
  binding w k = slots !! k.
Proof. unfold binding. intros -> ->. reflexivity. Qed.

Lemma bound_list_at w k l :
  mailbox_ok w -> bound w k l -> list_at w l = Some (queue_at w k).
Proof.
  intros [(a & slots & Hc & Ha & Hl & _) _] Hb.
  destruct (bound_inv _ _ _ Hb) as (a' & slots' & Hc' & Ha' & Hk).
  assert (a' = a) as -> by congruence.
  assert (slots' = slots) as -> by congruence.
  destruct (Hl _ _ Hk) as [items Hi].
  unfold queue_at, peek, list_at. rewrite Hc, Ha, Hk, Hi. reflexivity.
Qed.

(** Evaluating [self.message_queue[k]] changes no queue and no other
    object; afterwards the key is bound. *)
Lemma queue_ref_spec w self k :
  mailbox_ok w -> is_server w self ->
  exists l w',
    queue_ref self k w = (Ok l, w') /\
    mailbox_ok w' /\ bound w' k l /\
    (forall k', k' <> k -> binding w' k' = binding w k') /\
    (forall k', queue_at w' k' = queue_at w k') /\
    (forall l' items, list_at w l' = Some items -> list_at w' l' = Some items) /\
    keeps w w'.
Proof.
  intros Hok Hs. destruct (getattr_message_queue _ _ Hok Hs) as (a0 & Hc & Hg).
  pose proof Hok as [(a0' & slots & Hc' & Ha & Hl & Hinj) Hns].
  assert (a0' = a0) as -> by congruence. clear Hc'.
  unfold queue_ref. rewrite (bind_ok _ _ _ _ _ Hg).
  unfold defaultdict_getitem. rewrite Ha.
  destruct (slots !! k) as [l|] eqn:Hk.
  - exists l, w. split; [done|]. split; [done|].
    split; [by unfold bound; rewrite (binding_slots _ _ _ _ Hc Ha)|].
    repeat split; done.
  - set (l := fresh (dom (heap w))).
    assert (Hfresh : heap w !! l = None) by apply fresh_heap_None.
    assert (Hne : l <> a0) by congruence.
    assert (Hnl : forall k' l', slots !! k' = Some l' -> l <> l' /\ a0 <> l').
    { intros k' l' Hk'. destruct (Hl _ _ Hk') as [items Hi]. split; congruence. }
    eexists l, _. split; [reflexivity|].
    split; [split|split; [|split; [|split; [|split]]]].
    + exists a0, (<[k := l]> slots). simpl. rewrite lookup_insert_eq.
      repeat split; try done.
      * intros k' l'. rewrite lookup_insert. case_decide.
        -- intros [= <-]. rewrite lookup_insert_ne by done.
           rewrite lookup_insert_eq. eauto.
        -- intros Hk'. destruct (Hnl _ _ Hk') as [? ?]. destruct (Hl _ _ Hk') as [items Hi].
           exists items. rewrite !lookup_insert_ne by done. done.
      * intros k1 k2 l'. rewrite !lookup_insert.
        repeat case_decide; subst; try done.
        -- intros [= <-] Hk2. destruct (Hnl _ _ Hk2) as [? _]. done.
        -- intros Hk1 [= <-]. destruct (Hnl _ _ Hk1) as [? _]. done.
        -- apply Hinj.
    + intros s attrs. simpl.
      destruct (decide (a0 = s)) as [->|Has]; [rewrite lookup_insert_eq; discriminate|].
      rewrite lookup_insert_ne by done.
      destruct (decide (l = s)) as [->|Hls]; [rewrite lookup_insert_eq; discriminate|].
      rewrite lookup_insert_ne by done. apply Hns.
    + unfold bound, binding. simpl. rewrite Hc.
      rewrite !lookup_insert_eq. done.
    + intros k' Hk'. unfold binding. simpl. rewrite Hc, Ha.
      rewrite lookup_insert_eq. by rewrite lookup_insert_ne.
    + intros k'. unfold queue_at. simpl. rewrite Hc. unfold peek, list_at. simpl.
      rewrite lookup_insert_eq, Ha, lookup_insert. case_decide.
      * subst k'. rewrite Hk, lookup_insert_ne by done.
        rewrite lookup_insert_eq. reflexivity.
      * destruct (slots !! k') as [l'|] eqn:Hl'; [|done].
        destruct (Hnl _ _ Hl') as [? ?].
        rewrite !lookup_insert_ne by done. done.
    + intros l' items. unfold list_at. simpl.
      destruct (heap w !! l') as [o|] eqn:Ho; [|discriminate].
      assert (l <> l') by congruence.
      destruct (decide (a0 = l')) as [->|Hal].
      * rewrite Ha in Ho. injection Ho as <-. discriminate.
      * rewrite !lookup_insert_ne by done. rewrite Ho. done.
    + split; [done|]. intros a o Ho Hm. simpl.
      assert (l <> a) by congruence.
      assert (a0 <> a). { intros ->. rewrite Ha in Ho. injection Ho as <-. apply Hm. exact I. }
      rewrite !lookup_insert_ne by done. done.
Qed.

(** Appending to the list a key is bound to extends that queue and no
    other. *)
Lemma list_append_spec w k l m :
  mailbox_ok w -> bound w k l ->
  exists w',
    list_append l m w = (Ok tt, w') /\
    mailbox_ok w' /\
    (forall k', binding w' k' = binding w k') /\
    queue_at w' k = queue_at w k ++ [m] /\
    (forall k', k' <> k -> queue_at w' k' = queue_at w k') /\
    keeps w w'.
Proof.
  intros Hok Hb. pose proof (bound_list_at _ _ _ Hok Hb) as Hq.
  destruct Hok as [(a0 & slots & Hc & Ha & Hl & Hinj) Hns].
  destruct (bound_inv _ _ _ Hb) as (a0' & slots' & Hc' & Ha' & Hk).
  assert (a0' = a0) as -> by congruence.
  assert (slots' = slots) as -> by congruence. clear Hc' Ha'.
  destruct (Hl _ _ Hk) as [items Hi].
  unfold list_at in Hq. rewrite Hi in Hq. injection Hq as Hq.
  unfold list_append. rewrite Hi. eexists. split; [reflexivity|].
  assert (Hne : l <> a0) by congruence.
  split; [split|split; [|split; [|split]]].
  - exists a0, slots. simpl. rewrite lookup_insert_ne by done.
    repeat split; try done.
    intros k' l' Hk'. destruct (decide (l = l')) as [->|Hll].
    + rewrite lookup_insert_eq. eauto.
    + rewrite lookup_insert_ne by done. eauto.
  - intros s attrs. simpl. destruct (decide (l = s)) as [->|Hls].
    + rewrite lookup_insert_eq. discriminate.
    + rewrite lookup_insert_ne by done. apply Hns.
  - intros k'. unfold binding. simpl. rewrite Hc.
    rewrite lookup_insert_ne by done. reflexivity.
  - rewrite <- Hq. unfold queue_at. simpl. rewrite Hc. unfold peek, list_at. simpl.
    rewrite lookup_insert_ne by done. rewrite Ha, Hk, lookup_insert_eq.
    reflexivity.
  - intros k' Hk'. unfold queue_at. simpl. rewrite Hc. unfold peek, list_at. simpl.
    rewrite lookup_insert_ne by done. rewrite Ha.
    destruct (slots !! k') as [l'|] eqn:Hl'; [|done].
    rewrite lookup_insert_ne; [done|]. intros ->. apply Hk'. eauto.
  - split; [done|]. intros a o Ho Hm. simpl.
    rewrite lookup_insert_ne; [done|]. intros ->. rewrite Hi in Ho.
    injection Ho as <-. apply Hm. exact I.
Qed.

Lemma keeps_trans w1 w2 w3 : keeps w1 w2 -> keeps w2 w3 -> keeps w1 w3.
Proof.
  intros [Hc1 H1] [Hc2 H2]. split; [congruence|]. eauto.
Qed.

Lemma _add_to_queue_spec w self m :
  mailbox_ok w -> is_server w self ->
  exists w',
    _add_to_queue self m w = (Ok tt, w') /\
    mailbox_ok w' /\
    is_Some (binding w' (name (sender (metadata m)))) /\
    (forall k, k <> name (sender (metadata m)) -> binding w' k = binding w k) /\
    queue_at w' (name (sender (metadata m)))
      = queue_at w (name (sender (metadata m))) ++ [m] /\
    (forall k, k <> name (sender (metadata m)) -> queue_at w' k = queue_at w k) /\
    keeps w w'.
Proof.
  intros Hok Hs. set (key := name (sender (metadata m))).
  destruct (queue_ref_spec w self key Hok Hs)
    as (l & w1 & Hr & Hok1 & Hb & Hb1 & Hq1 & _ & Hk1).
  destruct (list_append_spec w1 key l m Hok1 Hb)
    as (w2 & Ha & Hok2 & Hb2 & Hq2 & Hq2' & Hk2).
  exists w2. unfold _add_to_queue. fold key. rewrite (bind_ok _ _ _ _ _ Hr).
  split; [done|]. split; [done|]. split; [|split; [|split; [|split]]].
  - exists l. rewrite Hb2. exact Hb.
  - intros k Hk. rewrite Hb2. by apply Hb1.
  - rewrite Hq2, Hq1. done.
  - intros k Hk. rewrite Hq2' by done. apply Hq1.
  - eapply keeps_trans; eauto.
Qed.

(** Rebinding a key to a new empty list empties that queue, leaves the
    others alone and leaves every list object as it was. *)
Lemma reset_queue_spec w self k :
  mailbox_ok w -> is_server w self ->
  exists w',
    reset_queue self k w = (Ok tt, w') /\
    mailbox_ok w' /\
    (forall k', k' <> k -> binding w' k' = binding w k') /\
    queue_at w' k = [] /\
    (forall k', k' <> k -> queue_at w' k' = queue_at w k') /\
    (forall l items, list_at w l = Some items -> list_at w' l = Some items) /\
    keeps w w'.
Proof.
  intros Hok [attrs Hs].
  destruct Hok as [(a0 & slots & Hc & Ha & Hl & Hinj) Hns].
  set (nl := fresh (dom (heap w))).
  assert (Hfresh : heap w !! nl = None) by apply fresh_heap_None.
  assert (Hna : nl <> a0) by congruence.
  assert (Hnself : nl <> self) by congruence.
  assert (Hnl : forall k' l', slots !! k' = Some l' -> nl <> l' /\ a0 <> l').
  { intros k' l' Hk'. destruct (Hl _ _ Hk') as [items Hi]. split; congruence. }
  unfold reset_queue, bind, alloc, getattr, defaultdict_setitem. fold nl. simpl.
  rewrite lookup_insert_ne by done. rewrite Hs, (Hns _ _ Hs), Hc. simpl.
  rewrite lookup_insert_ne by done. rewrite Ha.
  eexists. split; [reflexivity|].
  split; [split|split; [|split; [|split; [|split]]]].
  - exists a0, (<[k := nl]> slots). simpl. rewrite lookup_insert_eq.
    repeat split; try done.
    + intros k' l'. rewrite lookup_insert. case_decide.
      * intros [= <-]. rewrite lookup_insert_ne by done.
        rewrite lookup_insert_eq. eauto.
      * intros Hk'. destruct (Hnl _ _ Hk') as [? ?]. destruct (Hl _ _ Hk') as [items Hi].
        exists items. rewrite !lookup_insert_ne by done. done.
    + intros k1 k2 l'. rewrite !lookup_insert.
      repeat case_decide; subst; try done.
      * intros [= <-] Hk2. destruct (Hnl _ _ Hk2) as [? _]. done.
      * intros Hk1 [= <-]. destruct (Hnl _ _ Hk1) as [? _]. done.
      * apply Hinj.
  - intros s attrs'. simpl.
    destruct (decide (a0 = s)) as [->|Has]; [rewrite lookup_insert_eq; discriminate|].
    rewrite lookup_insert_ne by done.
    destruct (decide (nl = s)) as [->|Hls]; [rewrite lookup_insert_eq; discriminate|].
    rewrite lookup_insert_ne by done. apply Hns.
  - intros k' Hk'. unfold binding. simpl. rewrite Hc, Ha.
    rewrite lookup_insert_eq. by rewrite lookup_insert_ne.
  - unfold queue_at. simpl. rewrite Hc. unfold peek, list_at. simpl.
    rewrite !lookup_insert_eq. rewrite lookup_insert_ne by done.
    rewrite lookup_insert_eq. reflexivity.
  - intros k' Hk'. unfold queue_at. simpl. rewrite Hc. unfold peek, list_at. simpl.
    rewrite lookup_insert_eq, Ha. rewrite lookup_insert_ne by done.
    destruct (slots !! k') as [l'|] eqn:Hl'; [|done].
    destruct (Hnl _ _ Hl') as [? ?].
    rewrite !lookup_insert_ne by done. done.
  - intros l' items. unfold list_at. simpl.
    destruct (heap w !! l') as [o|] eqn:Ho; [|discriminate].
    assert (nl <> l') by congruence.
    destruct (decide (a0 = l')) as [->|Hal].
    + rewrite Ha in Ho. injection Ho as <-. discriminate.
    + rewrite !lookup_insert_ne by done. rewrite Ho. done.
  - split; [done|]. intros a o Ho Hm. simpl.
    assert (nl <> a) by congruence.
    assert (a0 <> a). { intros ->. rewrite Ha in Ho. injection Ho as <-. apply Hm. exact I. }
    rewrite !lookup_insert_ne by done. done.
Qed.

(** Draining a key hands out the list that held its queue and leaves the
    key with an empty queue. *)
Lemma drain_spec w self k :
  mailbox_ok w -> is_server w self ->
  exists l w',
    drain self k w = (Ok l, w') /\
    mailbox_ok w' /\
    list_at w' l = Some (queue_at w k) /\
    queue_at w' k = [] /\
    (forall k', k' <> k ->
       queue_at w' k' = queue_at w k' /\ binding w' k' = binding w k') /\
    (forall l' items, list_at w l' = Some items -> list_at w' l' = Some items) /\
    keeps w w'.
Proof.
  intros Hok Hs.
  destruct (queue_ref_spec w self k Hok Hs)
    as (l & w1 & Hr & Hok1 & Hb & Hb1 & Hq1 & Hlist1 & Hk1).
  pose proof (keeps_server _ _ _ Hk1 Hs) as Hs1.
  destruct (reset_queue_spec w1 self k Hok1 Hs1)
    as (w2 & Hz & Hok2 & Hb2 & Hq2 & Hq2' & Hlist2 & Hk2).
  exists l, w2. unfold drain.
  rewrite (bind_ok _ _ _ _ _ Hr), (bind_ok _ _ _ _ _ Hz).
  split; [done|]. split; [done|]. split; [|split; [|split; [|split]]].
  - apply Hlist2. rewrite <- Hq1. by apply bound_list_at.
  - done.
  - intros k' Hk'. split.
    + rewrite Hq2' by done. apply Hq1.
    + rewrite Hb2 by done. by apply Hb1.
  - eauto.
  - eapply keeps_trans; eauto.
Qed.

(** [pop] on the list a key is bound to: the last item leaves the queue;
    an empty queue raises [IndexError] and stays as it is. *)
Lemma list_pop_last w k l items x :
  mailbox_ok w -> bound w k l -> queue_at w k = items ++ [x] ->
  exists w', list_pop l w = (Ok x, w') /\ queue_at w' k = items.
Proof.
  intros Hok Hb Hq. pose proof (bound_list_at _ _ _ Hok Hb) as Hl.
  destruct Hok as [(a0 & slots & Hc & Ha & Hlists & _) _].
  destruct (bound_inv _ _ _ Hb) as (a0' & slots' & Hc' & Ha' & Hk).
  assert (a0' = a0) as -> by congruence.
  assert (slots' = slots) as -> by congruence.
  unfold list_at in Hl. destruct (heap w !! l) as [[its| | | | | |]|] eqn:Hi; try discriminate.
  injection Hl as Hl. rewrite Hq in Hl. subst its.
  unfold list_pop. rewrite Hi, last_snoc, removelast_last.
  eexists. split; [reflexivity|].
  assert (l <> a0) by congruence.
  unfold queue_at, peek, list_at. simpl. rewrite Hc.
  rewrite lookup_insert_ne by done. rewrite Ha, Hk, lookup_insert_eq. reflexivity.
Qed.

Lemma list_pop_empty w k l :
  mailbox_ok w -> bound w k l -> queue_at w k = [] ->
  list_pop l w = (Raise IndexError, w).
Proof.
  intros Hok Hb Hq. pose proof (bound_list_at _ _ _ Hok Hb) as Hl.
  unfold list_at in Hl. destruct (heap w !! l) as [[its| | | | | |]|] eqn:Hi; try discriminate.
  injection Hl as Hl. rewrite Hq in Hl. subst its.
  unfold list_pop. rewrite Hi. reflexivity.
Qed.

(** *** Construction keeps the mailbox *)

Lemma class_body_mailbox_ok : mailbox_ok (snd (class_body empty_world)).
Proof.
  unfold class_body, empty_world. simpl. split.
  - eexists _, ∅. simpl. rewrite !lookup_insert_eq.
    repeat split; try done; intros *; rewrite lookup_empty; discriminate.
  - intros s attrs. simpl. rewrite dom_empty_L.
    destruct (decide (fresh (∅ : gset nat) = s)) as [->|Hs].
    + rewrite lookup_insert_eq. discriminate.
    + rewrite lookup_insert_ne by done. rewrite lookup_empty. discriminate.
Qed.

Lemma step_insert w0 w a o :
  mailbox_ok w /\ (forall k, queue_at w k = queue_at w0 k) ->
  (forall o', heap w !! a = Some o' -> ~ mailbox_object o') ->
  ~ mailbox_object o ->
  (forall attrs, o = OInstance attrs -> attrs !! "message_queue" = None) ->
  mailbox_ok (set_heap <[a := o]> w) /\
  (forall k, queue_at (set_heap <[a := o]> w) k = queue_at w0 k).
Proof.
  intros [Hok Hq] H1 H2 H3.
  destruct (mailbox_ok_insert w a o Hok H1 H2 H3) as [Hok' Hq'].
  split; [done|]. intros k. rewrite Hq'. apply Hq.
Qed.

Ltac lookups :=
  cbn [heap set_heap class_dict];
  repeat first [ rewrite lookup_insert_eq
               | rewrite lookup_insert_ne by done
               | rewrite lookup_singleton_eq
               | rewrite lookup_empty ].

Ltac plain_insert H a o :=
  apply (step_insert _ _ a o) in H;
  [ | lookups; intros ? ?; simplify_eq; simpl; tauto
    | simpl; tauto
    | intros ? ?; simplify_eq; lookups; done ].

Lemma alloc_eq o w :
  alloc o w = (Ok (fresh (dom (heap w))), set_heap <[fresh (dom (heap w)) := o]> w).
Proof. reflexivity. Qed.

Lemma create_message_channel_eq b c channels w :
  heap w !! b = Some (OBroker channels) -> channels !! c = None ->
  create_message_channel b c w
  = (Ok tt, set_heap <[b := OBroker (<[c := []]> channels)]> w).
Proof. unfold create_message_channel. intros -> ->. reflexivity. Qed.

Lemma register_listener_eq b c channels listeners h f w :
  heap w !! b = Some (OBroker channels) -> channels !! c = Some listeners ->
  register_listener b c h f w
  = (Ok tt, set_heap <[b := OBroker (<[c := listeners ++ [mkListener h f]]> channels)]> w).
Proof. unfold register_listener. intros -> ->. reflexivity. Qed.

Lemma get_emitter_eq b c channels listeners sender_name sender_role w :
  heap w !! b = Some (OBroker channels) -> channels !! c = Some listeners ->
  get_emitter b c sender_name sender_role w
  = (Ok (fresh (dom (heap w))),
     set_heap <[fresh (dom (heap w)) :=
                  OEmitter b c (mkSender sender_name sender_role)]> w).
Proof. unfold get_emitter. intros -> ->. reflexivity. Qed.

Lemma setattr_eq s attrs x v w :
  heap w !! s = Some (OInstance attrs) ->
  setattr s x v w = (Ok tt, set_heap <[s := OInstance (<[x := v]> attrs)]> w).
Proof. unfold setattr. intros ->. reflexivity. Qed.

Lemma getattr_own s attrs x v w :
  heap w !! s = Some (OInstance attrs) -> attrs !! x = Some v ->
  getattr s x w = (Ok v, w).
Proof. unfold getattr. intros -> ->. reflexivity. Qed.

Lemma getattr_not_server s x w :
  ~ is_server w s -> getattr s x w = (Raise (AttributeError x), w).
Proof.
  intros Hn. unfold getattr.
  destruct (heap w !! s) as [[| | |attrs| | |]|] eqn:Hs; try reflexivity.
  destruct Hn. by exists attrs.
Qed.

Ltac run tac :=
  erewrite bind_ok by (tac; [> (lookups; first [eassumption | reflexivity]) ..]).

(** The broker a server builds for itself: one channel, three listeners
    in the order of their registration. *)
Lemma _get_message_broker_eq self w :
  _get_message_broker self w
  = (Ok (fresh (dom (heap w))),
     set_heap <[fresh (dom (heap w)) := OBroker {["autogpt" :=
        [ mkListener (HAddToQueue self)
            (fun m => Ok (MessageFilters.is_server_message m));
          mkListener (HExternal "agent_factory_context.bootstrap_agent")
            MessageFilters.is_user_bootstrap_message;
          mkListener (HExternal "agent_context.launch_agent")
            MessageFilters.is_user_launch_message ]]}]> w).
Proof.
  unfold _get_message_broker, SimpleMessageBroker.
  run ltac:(apply alloc_eq).
  run ltac:(eapply create_message_channel_eq).
  run ltac:(eapply register_listener_eq).
  run ltac:(eapply register_listener_eq).
  run ltac:(eapply register_listener_eq).
  unfold ret, set_heap. simpl. rewrite !insert_insert_eq. reflexivity.
Qed.

Lemma __init___eq self w :
  heap w !! self = Some (OInstance ∅) ->
  exists b e,
    heap w !! b = None /\ heap w !! e = None /\ b <> e /\
    __init__ self w
    = (Ok tt,
       set_heap (fun h =>
         <[self := OInstance (<["_user_emitter" := VObj e]>
                               (<["_message_broker" := VObj b]> ∅))]>
           (<[e := OEmitter b "autogpt" (mkSender "autogpt-user" USER)]>
              (<[b := OBroker {["autogpt" := server_listeners self]}]> h))) w).
Proof.
  intros Hself. unfold __init__.
  set (b := fresh (dom (heap w))).
  assert (Hb : heap w !! b = None) by apply fresh_heap_None.
  assert (Hbs : b <> self) by congruence.
  rewrite (bind_ok _ _ _ _ _ (_get_message_broker_eq self w)). fold b.
  run ltac:(eapply setattr_eq).
  run ltac:(eapply getattr_own).
  cbn beta iota.
  run ltac:(eapply get_emitter_eq).
  match goal with |- context [fresh (dom (heap ?w2))] =>
    set (e := fresh (dom (heap w2)));
    assert (He2 : heap w2 !! e = None) by apply fresh_heap_None
  end.
  cbn [heap set_heap] in He2.
  apply lookup_insert_None in He2 as [He2 Hes].
  apply lookup_insert_None in He2 as [He Hbe].
  erewrite setattr_eq by (lookups; reflexivity).
  exists b, e. split; [done|]. split; [done|]. split; [done|].
  f_equal. unfold set_heap. simpl. f_equal.
  rewrite (insert_insert_ne _ e self) by done.
  rewrite insert_insert_eq. reflexivity.
Qed.

Lemma FakeApplicationServer_spec w :
  mailbox_ok w ->
  exists self w',
    FakeApplicationServer w = (Ok self, w') /\
    mailbox_ok w' /\
    is_server w' self /\ ~ is_server w self /\
    (forall k, queue_at w' k = queue_at w k) /\
    keeps w w'.
Proof.
  intros Hok. unfold FakeApplicationServer.
  rewrite (bind_ok _ _ _ _ _ (alloc_eq _ _)).
  set (self := fresh (dom (heap w))).
  assert (Hself : heap w !! self = None) by apply fresh_heap_None.
  destruct (__init___eq self (set_heap <[self := OInstance ∅]> w))
    as (b & e & Hb1 & He1 & Hbe & Hinit); [by lookups|].
  cbn [heap set_heap] in Hb1, He1.
  apply lookup_insert_None in Hb1 as [Hb Hsb].
  apply lookup_insert_None in He1 as [He Hse].
  rewrite (bind_ok _ _ _ _ _ Hinit). unfold ret.
  eexists self, _. split; [reflexivity|].
  assert (H0 : mailbox_ok w /\ (forall k, queue_at w k = queue_at w k)) by done.
  plain_insert H0 self (OInstance ∅).
  plain_insert H0 b (OBroker {["autogpt" := server_listeners self]}).
  plain_insert H0 e (OEmitter b "autogpt" (mkSender "autogpt-user" USER)).
  plain_insert H0 self (OInstance (<["_user_emitter" := VObj e]>
                                    (<["_message_broker" := VObj b]> ∅))).
  destruct H0 as [Hok' Hq'].
  split; [exact Hok'|]. split; [|split; [|split; [exact Hq'|]]].
  - eexists. lookups. reflexivity.
  - intros [attrs Ha]. congruence.
  - split; [done|]. intros a o Ho _.
    assert (self <> a) by congruence. assert (b <> a) by congruence.
    assert (e <> a) by congruence. lookups. done.
Qed.

(** Outside a server instance, [self.message_queue] is not reached and
    nothing changes. *)
Lemma queue_ref_not_server w self k :
  ~ is_server w self ->
  queue_ref self k w = (Raise (AttributeError "message_queue"), w).
Proof.
  intros Hn. unfold queue_ref.
  by rewrite (bind_raise _ _ _ _ _ (getattr_not_server _ _ _ Hn)).
Qed.

Lemma is_server_dec w self : {is_server w self} + {~ is_server w self}.
Proof.
  unfold is_server. destruct (heap w !! self) as [[| | |attrs| | |]|].
  4: left; eauto.
  all: right; intros [? [=]].
Qed.

(** The invariant holds in every store the program can be in. *)
Lemma reachable_mailbox_ok w : reachable w -> mailbox_ok w.
Proof.
  induction 1 as [|w Hr IH|w self m Hr IH|w self k Hr IH].
  - apply class_body_mailbox_ok.
  - destruct (FakeApplicationServer_spec w IH) as (s & w' & -> & Hok & _). exact Hok.
  - destruct (is_server_dec w self) as [Hs|Hn].
    + destruct (_add_to_queue_spec w self m IH Hs) as (w' & -> & Hok & _). exact Hok.
    + unfold _add_to_queue.
      rewrite (bind_raise _ _ _ _ _ (queue_ref_not_server _ _ _ Hn)). exact IH.
  - destruct (is_server_dec w self) as [Hs|Hn].
    + destruct (drain_spec w self k IH Hs) as (l & w' & -> & Hok & _). exact Hok.
    + unfold drain.
      rewrite (bind_raise _ _ _ _ _ (queue_ref_not_server _ _ _ Hn)). exact IH.
Qed.

Lemma is_server_lookup w self attrs :
  heap w !! self = Some (OInstance attrs) -> is_server w self.
Proof. intros H. by exists attrs. Qed.

(** *** The claims *)

(** C5: when [m1] and then [m2], of one sender name with an empty queue,
    are delivered to [_add_to_queue], draining that name returns a list
    holding [m1; m2] in this order, a second drain returns an empty list
    and leaves the first one as it was, and draining a name with nothing
    queued returns an empty list; no step raises. *)
Theorem drain_order_preserving_and_clearing w self k k0 m1 m2 :
  reachable w -> is_server w self ->
  name (sender (metadata m1)) = k -> name (sender (metadata m2)) = k ->
  queue_at w k = [] -> queue_at w k0 = [] ->
  (exists w1 w2 l w3 l' w4,
     _add_to_queue self m1 w = (Ok tt, w1) /\
     _add_to_queue self m2 w1 = (Ok tt, w2) /\
     drain self k w2 = (Ok l, w3) /\ list_at w3 l = Some [m1; m2] /\
     drain self k w3 = (Ok l', w4) /\ list_at w4 l' = Some [] /\
     list_at w4 l = Some [m1; m2]) /\
  (exists l0 w0, drain self k0 w = (Ok l0, w0) /\ list_at w0 l0 = Some []).
Proof.
  intros Hr Hs H1 H2 Hq Hq0. pose proof (reachable_mailbox_ok _ Hr) as Hok.
  split.
  - destruct (_add_to_queue_spec w self m1 Hok Hs)
      as (w1 & E1 & Hok1 & _ & _ & Hq1 & _ & Hk1).
    pose proof (keeps_server _ _ _ Hk1 Hs) as Hs1.
    destruct (_add_to_queue_spec w1 self m2 Hok1 Hs1)
      as (w2 & E2 & Hok2 & _ & _ & Hq2 & _ & Hk2).
    pose proof (keeps_server _ _ _ Hk2 Hs1) as Hs2.
    destruct (drain_spec w2 self k Hok2 Hs2)
      as (l & w3 & E3 & Hok3 & Hl3 & Hq3 & _ & _ & Hk3).
    pose proof (keeps_server _ _ _ Hk3 Hs2) as Hs3.
    destruct (drain_spec w3 self k Hok3 Hs3)
      as (l' & w4 & E4 & Hok4 & Hl4 & _ & _ & Hlist4 & _).
    exists w1, w2, l, w3, l', w4.
    rewrite H1 in Hq1. rewrite H2 in Hq2.
    rewrite Hq2, Hq1, Hq in Hl3. simpl in Hl3. rewrite Hq3 in Hl4.
    repeat split; try done. by apply Hlist4.
  - destruct (drain_spec w self k0 Hok Hs) as (l0 & w0 & E & _ & Hl & _).
    exists l0, w0. rewrite Hq0 in Hl. done.
Qed.

Lemma drain_order_preserving_and_clearing_witness :
  (exists w1 w2 l w3 l' w4,
     _add_to_queue 1 (factory_reply 1) world_one_server = (Ok tt, w1) /\
     _add_to_queue 1 (factory_reply 2) w1 = (Ok tt, w2) /\
     drain 1 "autogpt-agent-factory" w2 = (Ok l, w3) /\
     list_at w3 l = Some [factory_reply 1; factory_reply 2] /\
     drain 1 "autogpt-agent-factory" w3 = (Ok l', w4) /\
     list_at w4 l' = Some [] /\
     list_at w4 l = Some [factory_reply 1; factory_reply 2]) /\
  (exists l0 w0, drain 1 "autogpt-agent" world_one_server = (Ok l0, w0) /\
                 list_at w0 l0 = Some []).
Proof.
  apply (drain_order_preserving_and_clearing world_one_server 1
           "autogpt-agent-factory" "autogpt-agent"
           (factory_reply 1) (factory_reply 2)).
  - apply reach_construct, reach_class_body.
  - eapply is_server_lookup. vm_compute. reflexivity.
  - reflexivity.
  - reflexivity.
  - vm_compute. reflexivity.
  - vm_compute. reflexivity.
Defined.

(** C6: a message delivered to [_add_to_queue] is appended, as it is, to
    the queue of [message.metadata.sender.name], which is bound from then
    on whether or not it was before; every other key keeps its binding and
    its queue. *)
Theorem _add_to_queue_appends_under_sender_name w self m :
  reachable w -> is_server w self ->
  exists w',
    _add_to_queue self m w = (Ok tt, w') /\
    is_Some (binding w' (name (sender (metadata m)))) /\
    queue_at w' (name (sender (metadata m)))
      = queue_at w (name (sender (metadata m))) ++ [m] /\
    (forall k, k <> name (sender (metadata m)) ->
       binding w' k = binding w k /\ queue_at w' k = queue_at w k).
Proof.
  intros Hr Hs. pose proof (reachable_mailbox_ok _ Hr) as Hok.
  destruct (_add_to_queue_spec w self m Hok Hs)
    as (w' & E & _ & Hb & Hb' & Hq & Hq' & _).
  exists w'. repeat split; auto.
Qed.

Lemma _add_to_queue_appends_under_sender_name_witness :
  binding world_one_server "autogpt-agent" = None /\
  exists w',
    _add_to_queue 1 (agent_note 1) world_one_server = (Ok tt, w') /\
    is_Some (binding w' "autogpt-agent") /\
    queue_at w' "autogpt-agent"
      = queue_at world_one_server "autogpt-agent" ++ [agent_note 1] /\
    (forall k, k <> "autogpt-agent" ->
       binding w' k = binding world_one_server k /\
       queue_at w' k = queue_at world_one_server k).
Proof.
  split; [vm_compute; reflexivity|].
  apply (_add_to_queue_appends_under_sender_name world_one_server 1 (agent_note 1)).
  - apply reach_construct, reach_class_body.
  - eapply is_server_lookup. vm_compute. reflexivity.
Defined.

(** C8: [message_queue] is one mapping, bound in the class: every server
    instance resolves [self.message_queue] to that same object, and what
    one instance appends through [_add_to_queue] is read back through any
    other instance and through the class. *)
Theorem message_queue_shared_by_all_servers w s1 s2 m :
  reachable w -> is_server w s1 -> is_server w s2 ->
  (exists a,
     class_dict w !! "message_queue" = Some (VObj a) /\
     getattr s1 "message_queue" w = (Ok (VObj a), w) /\
     getattr s2 "message_queue" w = (Ok (VObj a), w)) /\
  (exists w',
     _add_to_queue s1 m w = (Ok tt, w') /\
     queue_at w' (name (sender (metadata m)))
       = queue_at w (name (sender (metadata m))) ++ [m] /\
     queue_via s1 w' (name (sender (metadata m)))
       = Some (queue_at w (name (sender (metadata m))) ++ [m]) /\
     queue_via s2 w' (name (sender (metadata m)))
       = Some (queue_at w (name (sender (metadata m))) ++ [m])).
Proof.
  intros Hr Hs1 Hs2. pose proof (reachable_mailbox_ok _ Hr) as Hok. split.
  - destruct (getattr_message_queue _ _ Hok Hs1) as (a & Hc & Hg1).
    destruct (getattr_message_queue _ _ Hok Hs2) as (a' & Hc' & Hg2).
    exists a. assert (a' = a) as -> by congruence. done.
  - destruct (_add_to_queue_spec w s1 m Hok Hs1)
      as (w' & E & Hok' & _ & _ & Hq & _ & Hk).
    exists w'. split; [done|]. split; [done|].
    rewrite !queue_via_class by eauto using keeps_server.
    rewrite Hq. done.
Qed.

Lemma message_queue_shared_by_all_servers_witness :
  (exists a,
     class_dict world_two_servers !! "message_queue" = Some (VObj a) /\
     getattr 1 "message_queue" world_two_servers = (Ok (VObj a), world_two_servers) /\
     getattr 4 "message_queue" world_two_servers = (Ok (VObj a), world_two_servers)) /\
  (exists w',
     _add_to_queue 1 (agent_note 1) world_two_servers = (Ok tt, w') /\
     queue_at w' "autogpt-agent"
       = queue_at world_two_servers "autogpt-agent" ++ [agent_note 1] /\
     queue_via 1 w' "autogpt-agent"
       = Some (queue_at world_two_servers "autogpt-agent" ++ [agent_note 1]) /\
     queue_via 4 w' "autogpt-agent"
       = Some (queue_at world_two_servers "autogpt-agent" ++ [agent_note 1])).
Proof.
  apply (message_queue_shared_by_all_servers world_two_servers 1 4 (agent_note 1)).
  - apply reach_construct, reach_construct, reach_class_body.
  - eapply is_server_lookup. vm_compute. reflexivity.
  - eapply is_server_lookup. vm_compute. reflexivity.
Defined.

(** C9: the drain of ["autogpt-agent-factory"] in [boostrap_new_agent]
    succeeds, leaves that key with an empty queue, and leaves the binding
    and the queue of every other sender name, and every list object, as
    they were. *)
Theorem drain_agent_factory_frame w self :
  reachable w -> is_server w self ->
  exists l w',
    drain self "autogpt-agent-factory" w = (Ok l, w') /\
    list_at w' l = Some (queue_at w "autogpt-agent-factory") /\
    queue_at w' "autogpt-agent-factory" = [] /\
    (forall k, k <> "autogpt-agent-factory" ->
       queue_at w' k = queue_at w k /\ binding w' k = binding w k) /\
    (forall l' items, list_at w l' = Some items -> list_at w' l' = Some items).
Proof.
  intros Hr Hs. pose proof (reachable_mailbox_ok _ Hr) as Hok.
  destruct (drain_spec w self "autogpt-agent-factory" Hok Hs)
    as (l & w' & E & _ & Hl & Hq & Hframe & Hlist & _).
  exists l, w'. repeat split; try done; by apply Hframe.
Qed.

Lemma drain_agent_factory_frame_witness :
  queue_at world_two_notes "autogpt-agent" = [agent_note 1; agent_note 2] /\
  exists l w',
    drain 1 "autogpt-agent-factory" world_two_notes = (Ok l, w') /\
    list_at w' l = Some (queue_at world_two_notes "autogpt-agent-factory") /\
    queue_at w' "autogpt-agent-factory" = [] /\
    (forall k, k <> "autogpt-agent-factory" ->
       queue_at w' k = queue_at world_two_notes k /\
       binding w' k = binding world_two_notes k) /\
    (forall l' items, list_at world_two_notes l' = Some items ->
                      list_at w' l' = Some items).
Proof.
  split; [vm_compute; reflexivity|].
  apply (drain_agent_factory_frame world_two_notes 1).
  - do 2 apply reach_add_to_queue. apply reach_construct, reach_class_body.
  - eapply is_server_lookup. vm_compute. reflexivity.
Defined.


(** ** The request methods *)

Section Requests.

Variable external : string -> Message -> M unit.

Implicit Types (request : Request).

(** A message published on a channel whose only listener is the mailbox
    of [self], with a filter that accepts it, ends up in that mailbox. *)
Lemma send_message_to_mailbox w w' e b c bound_to channels f self body additional :
  heap w !! e = Some (OEmitter b c bound_to) ->
  heap w !! b = Some (OBroker channels) ->
  channels !! c = Some [mkListener (HAddToQueue self) f] ->
  f (mkMessage body (mkMetadata bound_to additional)) = Ok true ->
  _add_to_queue self (mkMessage body (mkMetadata bound_to additional)) w = (Ok tt, w') ->
  send_message external (VObj e) body additional w = (Ok true, w').
Proof.
  intros He Hb Hc Hf Hadd. unfold send_message, publish. rewrite He, Hb, Hc.
  simpl. rewrite Hf. unfold bind, isolated, invoke, ret. rewrite Hadd. reflexivity.
Qed.

(** C7: on a new broker with the channel ["autogpt"], the mailbox of a
    server registered under [is_server_message], and an emitter for
    [("autogpt-agent-factory", AGENT_FACTORY)], sending
    [{"result": "ok"}] with no metadata and then draining
    ["autogpt-agent-factory"] returns a list of exactly one message, whose
    content is [{"result": "ok"}]. *)
Theorem mailbox_scenario_returns_the_reply w self :
  reachable w -> is_server w self ->
  queue_at w "autogpt-agent-factory" = [] ->
  exists l w' reply,
    mailbox_scenario external self w = (Ok l, w') /\
    list_at w' l = Some [reply] /\
    content reply = {["result" := VStr "ok"]} /\
    sender (metadata reply) = mkSender "autogpt-agent-factory" AGENT_FACTORY.
Proof.
  intros Hr Hs Hq. pose proof (reachable_mailbox_ok _ Hr) as Hok.
  destruct Hs as [attrs Hself].
  unfold mailbox_scenario, SimpleMessageBroker.
  set (b := fresh (dom (heap w))).
  assert (Hb : heap w !! b = None) by apply fresh_heap_None.
  assert (Hbs : b <> self) by congruence.
  run ltac:(apply alloc_eq). fold b.
  run ltac:(eapply create_message_channel_eq).
  run ltac:(eapply register_listener_eq).
  run ltac:(eapply get_emitter_eq).
  match goal with |- context [fresh (dom (heap ?w2))] =>
    set (e := fresh (dom (heap w2)));
    assert (He2 : heap w2 !! e = None) by apply fresh_heap_None
  end.
  cbn [heap set_heap] in He2.
  do 2 apply lookup_insert_None in He2 as [He2 _].
  apply lookup_insert_None in He2 as [He Hbe].
  assert (Hes : e <> self) by congruence.
  set (reply := mkMessage {["result" := VStr "ok"]}
                  (mkMetadata (mkSender "autogpt-agent-factory" AGENT_FACTORY) ∅)).
  match goal with |- context [bind (send_message _ _ _ _) _ ?w0] => set (w4 := w0) end.
  assert (H4 : mailbox_ok w4 /\ (forall k, queue_at w4 k = queue_at w k)).
  { assert (H0 : mailbox_ok w /\ (forall k, queue_at w k = queue_at w k)) by done.
    plain_insert H0 b (OBroker ∅).
    plain_insert H0 b (OBroker (<["autogpt" := []]> ∅)).
    plain_insert H0 b (OBroker (<["autogpt" :=
         [] ++ [mkListener (HAddToQueue self)
                  (fun m => Ok (MessageFilters.is_server_message m))]]>
         (<["autogpt" := []]> ∅))).
    plain_insert H0 e (OEmitter b "autogpt"
                         (mkSender "autogpt-agent-factory" AGENT_FACTORY)).
    exact H0. }
  destruct H4 as [Hok4 Hq4].
  assert (Hs4 : is_server w4 self).
  { exists attrs. unfold w4. lookups. done. }
  destruct (_add_to_queue_spec w4 self reply Hok4 Hs4)
    as (w5 & Hadd & Hok5 & _ & _ & Hq5 & _ & Hk5).
  pose proof (keeps_server _ _ _ Hk5 Hs4) as Hs5.
  erewrite bind_ok.
  2: { eapply send_message_to_mailbox; [> | | | | exact Hadd].
       - unfold w4. lookups. reflexivity.
       - unfold w4. lookups. reflexivity.
       - lookups. reflexivity.
       - reflexivity. }
  destruct (drain_spec w5 self "autogpt-agent-factory" Hok5 Hs5)
    as (l & w6 & Hd & _ & Hl & _).
  exists l, w6, reply. split; [done|]. split; [|done].
  rewrite Hl. simpl in Hq5. rewrite Hq5, Hq4, Hq. reflexivity.
Qed.

(** [_send_message] never returns: when everything before went well, the
    response is a bare [object()], and the assignment to its
    [status_code] is refused. *)
Lemma _send_message_fails self request extra_content extra_metadata w :
  exists e w',
    _send_message external self request extra_content extra_metadata w
    = (Raise e, w').
Proof.
  unfold _send_message, bind, lift.
  destruct (rbind (dict_getitem (json request) "content") _) as [body|e1]; [|eauto].
  destruct (rbind (dict_getitem (json request) "metadata") _) as [extra|e2]; [|eauto].
  destruct (getattr self "_user_emitter" w) as [[emitter|e3] w1]; [|eauto].
  destruct (send_message external emitter body extra w1) as [[success|e4] w2]; [|eauto].
  unfold alloc, setattr.
  destruct success; cbn [heap set_heap]; rewrite lookup_insert_eq; eauto.
Qed.

(** X14: [_send_message] never returns a response; a request without
    ["content"] gets [KeyError] and one sent with [extra_content] left at
    [None] gets [TypeError], both before anything is sent and with the
    store as it was. *)
Theorem _send_message_raises self request extra_content extra_metadata w :
  exists e w',
    _send_message external self request extra_content extra_metadata w
    = (Raise e, w') /\
    (json request !! "content" = None -> e = KeyError "content" /\ w' = w) /\
    (is_Some (json request !! "content") -> extra_content = VNone ->
     e = TypeError /\ w' = w).
Proof.
  destruct (_send_message_fails self request extra_content extra_metadata w)
    as (e & w' & H).
  exists e, w'. split; [exact H|]. revert H.
  unfold _send_message, bind, lift, dict_getitem, rbind. split.
  - intros Hc. rewrite Hc in H. by injection H as <- <-.
  - intros [v Hc] ->. rewrite Hc in H.
    destruct v; simpl in H; by injection H as <- <-.
Qed.

(** X15: [boostrap_new_agent] raises on every request, for every server
    and store: it stops in [_send_message], before its drain. *)
Lemma boostrap_new_agent_raises self request w :
  exists e w', boostrap_new_agent external self request w = (Raise e, w').
Proof.
  unfold boostrap_new_agent. unfold bind at 1.
  destruct (getattr self "_message_broker" w) as [[broker|e0] w0]; [|eauto].
  destruct (_send_message_fails self request
              (VDict {["message_broker" := broker]})
              (VDict {["instruction" := VStr "bootstrap_agent"]}) w0)
    as (e & w' & Hsend).
  rewrite (bind_raise _ _ _ _ _ Hsend). eauto.
Qed.

(** Without [extra_content], [_send_message] stops at its first
    statement, before anything is sent: [None] is not a mapping. *)
Lemma _send_message_defaults_raise self request w :
  exists e,
    _send_message external self request VNone VNone w = (Raise e, w) /\
    (e = KeyError "content" \/ e = TypeError).
Proof.
  unfold _send_message, bind, lift, dict_getitem, rbind.
  destruct (json request !! "content") as [[| | | | | |d|]|];
    simpl; eauto.
Qed.

(** X16: the method [launch_agent] raises on every request, with
    [KeyError("content")] or [TypeError], and leaves the store as it was:
    nothing is sent. *)
Lemma launch_agent_raises self request w :
  exists e,
    launch_agent external self request w = (Raise e, w) /\
    (e = KeyError "content" \/ e = TypeError).
Proof.
  destruct (_send_message_defaults_raise self request w) as (e & H & He).
  exists e. split; [exact H|exact He].
Qed.

(** X17: [give_agent_feedback] never reaches the queue: for every
    server, request and store it raises [KeyError("content")] or
    [TypeError] and leaves the store as it was. *)
Lemma give_agent_feedback_raises self request w :
  exists e,
    give_agent_feedback external self request w = (Raise e, w) /\
    (e = KeyError "content" \/ e = TypeError).
Proof.
  destruct (_send_message_defaults_raise self request w) as (e & H & He).
  exists e. split; [|exact He].
  unfold give_agent_feedback. by rewrite (bind_raise _ _ _ _ _ H).
Qed.

(** C10: with two notes queued under ["autogpt-agent"] and a request
    whose content and metadata are empty mappings, [give_agent_feedback]
    raises [TypeError] and the queue still holds both notes: nothing is
    popped and nothing is returned. *)
Theorem give_agent_feedback_leaves_the_queue :
  queue_at world_two_notes "autogpt-agent" = [agent_note 1; agent_note 2] /\
  give_agent_feedback external 1 plain_request world_two_notes
  = (Raise TypeError, world_two_notes).
Proof. split; vm_compute; reflexivity. Qed.

End Requests.

Lemma mailbox_scenario_returns_the_reply_witness :
  exists l w' reply,
    mailbox_scenario idle_listener 1 world_two_notes = (Ok l, w') /\
    list_at w' l = Some [reply] /\
    content reply = {["result" := VStr "ok"]} /\
    sender (metadata reply) = mkSender "autogpt-agent-factory" AGENT_FACTORY.
Proof.
  apply (mailbox_scenario_returns_the_reply idle_listener world_two_notes 1).
  - do 2 apply reach_add_to_queue. apply reach_construct, reach_class_body.
  - eapply is_server_lookup. vm_compute. reflexivity.
  - vm_compute. reflexivity.
Defined.

(** ** More on the filters *)

Section FilterTables.

Import MessageFilters.

Lemma filters_on_str_instruction_witness :
  additional_metadata (metadata user_launch_request) !! "instruction"
    = Some (VStr "launch_agent") /\
  is_user_bootstrap_message user_launch_request = Raise TypeError /\
  is_user_launch_message user_launch_request = Raise TypeError.
Proof.
  split; [reflexivity|].
  apply (filters_on_str_instruction user_launch_request "launch_agent").
  reflexivity.
Defined.

(** X1: whatever the message, [is_user_bootstrap_message] answers
    [False] or raises; it never answers [True]. *)
Theorem is_user_bootstrap_message_false_or_raises m :
  is_user_bootstrap_message m = Ok false \/
  exists e, is_user_bootstrap_message m = Raise e.
Proof.
  pose proof (is_user_bootstrap_message_never_true m) as H.
  destruct (is_user_bootstrap_message m) as [[|]|e]; eauto. done.
Qed.

(** X2: whatever the message, [is_user_launch_message] answers [False]
    or raises; it never answers [True]. *)
Theorem is_user_launch_message_false_or_raises m :
  is_user_launch_message m = Ok false \/
  exists e, is_user_launch_message m = Raise e.
Proof.
  pose proof (is_user_launch_message_never_true m) as H.
  destruct (is_user_launch_message m) as [[|]|e]; eauto. done.
Qed.

(** X4: the two instruction filters cannot be told apart: on every
    message they give the same answer or raise the same exception. *)
Theorem instruction_filters_agree m :
  is_user_bootstrap_message m = is_user_launch_message m.
Proof.
  unfold is_user_bootstrap_message, is_user_launch_message, dict_getitem, rbind.
  destruct (additional_metadata (metadata m) !! "instruction") as [v|]; [|reflexivity].
  destruct (bool_and _ v) as [r|e] eqn:E; [|reflexivity].
  by rewrite !(eq_str_after_and _ _ _ _ E).
Qed.

(** X5: [is_user_bootstrap_message] answers [False] exactly on the
    messages whose ["instruction"] entry is a [bool] or an [int]; on all
    others it raises. *)
Theorem is_user_bootstrap_message_false_iff m :
  is_user_bootstrap_message m = Ok false <->
  exists v, additional_metadata (metadata m) !! "instruction" = Some v /\
            ((exists b, v = VBool b) \/ (exists n, v = VInt n)).
Proof.
  unfold is_user_bootstrap_message, dict_getitem, rbind.
  destruct (additional_metadata (metadata m) !! "instruction") as [v|].
  - destruct v; simpl; split; try discriminate; eauto;
      intros (v & [= <-] & [[b' [=]]|[n' [=]]]).
  - split; [discriminate|]. intros (v & [=] & _).
Qed.

(** X6: the three role filters split the messages: exactly the one of
    the sender's role answers [True], and [is_server_message] is the
    negation of [is_user_message]. *)
Theorem role_filters_partition m :
  (is_user_message m, is_agent_message m, is_agent_factory_message m)
  = match role (sender (metadata m)) with
    | USER => (true, false, false)
    | AGENT => (false, true, false)
    | AGENT_FACTORY => (false, false, true)
    end /\
  is_server_message m = negb (is_user_message m).
Proof.
  unfold is_server_message, is_user_message, is_agent_message,
    is_agent_factory_message.
  destruct (role (sender (metadata m))); split; reflexivity.
Qed.

End FilterTables.

(** ** More on the mailbox *)

Lemma binding_injective w k1 k2 l :
  mailbox_ok w -> binding w k1 = Some l -> binding w k2 = Some l -> k1 = k2.
Proof.
  intros [(a & slots & Hc & Ha & _ & Hinj) _] H1 H2.
  rewrite (binding_slots _ _ _ _ Hc Ha) in H1.
  rewrite (binding_slots _ _ _ _ Hc Ha) in H2. eauto.
Qed.

(** X7: in every store the program can be in, two sender names are
    never bound to one list object, and the object a name is bound to is
    a list holding that name's queue. *)
Theorem queues_never_share_a_list w k1 k2 l :
  reachable w -> binding w k1 = Some l -> binding w k2 = Some l ->
  k1 = k2 /\ list_at w l = Some (queue_at w k1).
Proof.
  intros Hr H1 H2. pose proof (reachable_mailbox_ok _ Hr) as Hok. split.
  - eapply binding_injective; eauto.
  - by apply bound_list_at.
Qed.

Lemma queues_never_share_a_list_witness :
  "autogpt-agent" = "autogpt-agent" /\
  list_at world_two_notes 4 = Some (queue_at world_two_notes "autogpt-agent").
Proof.
  apply (queues_never_share_a_list world_two_notes
           "autogpt-agent" "autogpt-agent" 4).
  - do 2 apply reach_add_to_queue. apply reach_construct, reach_class_body.
  - vm_compute. reflexivity.
  - vm_compute. reflexivity.
Defined.

Lemma deliver_spec messages : forall w self,
  mailbox_ok w -> is_server w self ->
  exists w',
    deliver self messages w = (Ok tt, w') /\
    mailbox_ok w' /\ is_server w' self /\
    forall k, queue_at w' k
              = queue_at w k
                ++ filter (fun m => name (sender (metadata m)) = k) messages.
Proof.
  induction messages as [|m rest IH]; intros w self Hok Hs.
  - exists w. split; [done|]. split; [done|]. split; [done|].
    intros k. by rewrite filter_nil, app_nil_r.
  - destruct (_add_to_queue_spec w self m Hok Hs)
      as (w1 & E1 & Hok1 & _ & _ & Hq & Hq' & Hk1).
    pose proof (keeps_server _ _ _ Hk1 Hs) as Hs1.
    destruct (IH w1 self Hok1 Hs1) as (w2 & E2 & Hok2 & Hs2 & Hq2).
    exists w2. simpl. rewrite (bind_ok _ _ _ _ _ E1).
    split; [done|]. split; [done|]. split; [done|].
    intros k. rewrite Hq2, filter_cons.
    case_decide as Hk.
    + subst k. rewrite Hq. by rewrite <- app_assoc.
    + rewrite Hq' by done. done.
Qed.

(** X8: when the listener is called on a sequence of messages, each
    sender name's queue grows by exactly the messages of that sender, in
    the order of delivery, and a drain of the name then returns the old
    queue followed by them. *)
Theorem deliver_is_fifo_per_sender w self messages k :
  reachable w -> is_server w self ->
  exists w' l w'',
    deliver self messages w = (Ok tt, w') /\
    (forall k', queue_at w' k'
                = queue_at w k'
                  ++ filter (fun m => name (sender (metadata m)) = k') messages) /\
    drain self k w' = (Ok l, w'') /\
    list_at w'' l
    = Some (queue_at w k
            ++ filter (fun m => name (sender (metadata m)) = k) messages).
Proof.
  intros Hr Hs. pose proof (reachable_mailbox_ok _ Hr) as Hok.
  destruct (deliver_spec messages w self Hok Hs) as (w' & E & Hok' & Hs' & Hq).
  destruct (drain_spec w' self k Hok' Hs') as (l & w'' & Ed & _ & Hl & _).
  exists w', l, w''. split; [done|]. split; [done|]. split; [done|].
  by rewrite Hl, Hq.
Qed.

Lemma deliver_is_fifo_per_sender_witness :
  exists w' l w'',
    deliver 1 [agent_note 3; factory_reply 1; agent_note 4] world_two_notes
    = (Ok tt, w') /\
    (forall k', queue_at w' k'
                = queue_at world_two_notes k'
                  ++ filter (fun m => name (sender (metadata m)) = k')
                       [agent_note 3; factory_reply 1; agent_note 4]) /\
    drain 1 "autogpt-agent" w' = (Ok l, w'') /\
    list_at w'' l
    = Some (queue_at world_two_notes "autogpt-agent"
            ++ filter (fun m => name (sender (metadata m)) = "autogpt-agent")
                 [agent_note 3; factory_reply 1; agent_note 4]).
Proof.
  apply (deliver_is_fifo_per_sender world_two_notes 1
           [agent_note 3; factory_reply 1; agent_note 4] "autogpt-agent").
  - do 2 apply reach_add_to_queue. apply reach_construct, reach_class_body.
  - eapply is_server_lookup. vm_compute. reflexivity.
Defined.

(** *** A drained list is out of reach of the mailbox *)

Lemma queue_ref_origin w self k l w' :
  mailbox_ok w -> is_server w self ->
  queue_ref self k w = (Ok l, w') ->
  binding w k = Some l \/ heap w !! l = None.
Proof.
  intros Hok Hs. destruct (getattr_message_queue _ _ Hok Hs) as (a0 & Hc & Hg).
  destruct Hok as [(a0' & slots & Hc' & Ha & _) _].
  assert (a0' = a0) as -> by congruence.
  unfold queue_ref. rewrite (bind_ok _ _ _ _ _ Hg).
  unfold defaultdict_getitem. rewrite Ha, (binding_slots _ _ _ k Hc Ha).
  destruct (slots !! k) as [l0|]; intros [= <- <-].
  - by left.
  - right. apply fresh_heap_None.
Qed.

Lemma list_append_other w l m w' l0 :
  list_append l m w = (Ok tt, w') -> l0 <> l ->
  list_at w' l0 = list_at w l0.
Proof.
  unfold list_append.
  destruct (heap w !! l) as [[items| | | | | |]|]; try discriminate.
  intros [= <-] Hne. unfold list_at. simpl. by rewrite lookup_insert_ne.
Qed.

Lemma reset_queue_rebinds w self k w' :
  mailbox_ok w -> is_server w self ->
  reset_queue self k w = (Ok tt, w') ->
  exists nl, binding w' k = Some nl /\ heap w !! nl = None.
Proof.
  intros Hok [attrs Hs].
  destruct Hok as [(a0 & slots & Hc & Ha & _) Hns].
  set (nl := fresh (dom (heap w))).
  assert (Hfresh : heap w !! nl = None) by apply fresh_heap_None.
  assert (Hna : nl <> a0) by congruence.
  assert (Hnself : nl <> self) by congruence.
  unfold reset_queue, bind, alloc, getattr, defaultdict_setitem. fold nl. simpl.
  rewrite lookup_insert_ne by done. rewrite Hs, (Hns _ _ Hs), Hc. simpl.
  rewrite lookup_insert_ne by done. rewrite Ha.
  intros [= <-]. exists nl. split; [|done].
  unfold binding. simpl. rewrite Hc. by rewrite !lookup_insert_eq.
Qed.

Lemma list_at_in_heap w l items : list_at w l = Some items -> heap w !! l <> None.
Proof. unfold list_at. by destruct (heap w !! l). Qed.

Lemma drain_unbinds w self k l w' :
  mailbox_ok w -> is_server w self ->
  drain self k w = (Ok l, w') ->
  forall k', binding w' k' <> Some l.
Proof.
  intros Hok Hs Hd.
  destruct (queue_ref_spec w self k Hok Hs)
    as (l1 & w1 & Hr & Hok1 & Hb & _ & _ & _ & Hk1).
  pose proof (keeps_server _ _ _ Hk1 Hs) as Hs1.
  destruct (reset_queue_spec w1 self k Hok1 Hs1)
    as (w2 & Hz & _ & Hb2 & _).
  unfold drain in Hd.
  rewrite (bind_ok _ _ _ _ _ Hr), (bind_ok _ _ _ _ _ Hz) in Hd.
  injection Hd as <- <-.
  destruct (reset_queue_rebinds w1 self k w2 Hok1 Hs1 Hz) as (nl & Hnl & Hfresh).
  pose proof (list_at_in_heap _ _ _ (bound_list_at _ _ _ Hok1 Hb)) as Hlive.
  intros k'. destruct (decide (k' = k)) as [->|Hne].
  - rewrite Hnl. intros [= ->]. done.
  - rewrite Hb2 by done. intros Hk'. apply Hne.
    eapply binding_injective; eauto.
Qed.

Lemma _add_to_queue_detached w self m w' l0 items :
  mailbox_ok w -> is_server w self ->
  (forall k, binding w k <> Some l0) -> list_at w l0 = Some items ->
  _add_to_queue self m w = (Ok tt, w') ->
  (forall k, binding w' k <> Some l0) /\ list_at w' l0 = Some items.
Proof.
  intros Hok Hs Hfree Hl0 Ha. set (key := name (sender (metadata m))).
  destruct (queue_ref_spec w self key Hok Hs)
    as (l & w1 & Hr & Hok1 & Hb & Hb1 & _ & Hlist1 & _).
  destruct (list_append_spec w1 key l m Hok1 Hb)
    as (w2 & Hap & _ & Hb2 & _).
  unfold _add_to_queue in Ha. fold key in Ha.
  rewrite (bind_ok _ _ _ _ _ Hr), Hap in Ha. injection Ha as <-.
  assert (Hne : l0 <> l).
  { intros ->. destruct (queue_ref_origin w self key l w1 Hok Hs Hr) as [H|H].
    - by apply (Hfree key).
    - by apply (list_at_in_heap _ _ _ Hl0). }
  split.
  - intros k. rewrite Hb2. destruct (decide (k = key)) as [->|Hk].
    + rewrite Hb. congruence.
    + rewrite Hb1 by done. apply Hfree.
  - rewrite (list_append_other _ _ _ _ _ Hap Hne). by apply Hlist1.
Qed.

Lemma deliver_detached messages : forall w self w' l0 items,
  mailbox_ok w -> is_server w self ->
  (forall k, binding w k <> Some l0) -> list_at w l0 = Some items ->
  deliver self messages w = (Ok tt, w') ->
  list_at w' l0 = Some items.
Proof.
  induction messages as [|m rest IH]; intros w self w' l0 items Hok Hs Hfree Hl0 Hd.
  - simpl in Hd. injection Hd as <-. done.
  - destruct (_add_to_queue_spec w self m Hok Hs)
      as (w1 & E1 & Hok1 & _ & _ & _ & _ & Hk1).
    pose proof (keeps_server _ _ _ Hk1 Hs) as Hs1.
    destruct (_add_to_queue_detached w self m w1 l0 items Hok Hs Hfree Hl0 E1)
      as [Hfree1 Hl1].
    simpl in Hd. rewrite (bind_ok _ _ _ _ _ E1) in Hd. eauto.
Qed.

(** X9: the list a drain hands out is no longer the mailbox's: whatever
    is delivered afterwards, and whatever is drained again, that list
    still holds exactly the queue it was taken with. *)
Theorem drained_list_is_detached w self k l w1 messages k' :
  reachable w -> is_server w self ->
  drain self k w = (Ok l, w1) ->
  exists w2 l' w3,
    deliver self messages w1 = (Ok tt, w2) /\
    list_at w2 l = Some (queue_at w k) /\
    drain self k' w2 = (Ok l', w3) /\
    list_at w3 l = Some (queue_at w k).
Proof.
  intros Hr Hs Hd. pose proof (reachable_mailbox_ok _ Hr) as Hok.
  pose proof (drain_unbinds _ _ _ _ _ Hok Hs Hd) as Hfree.
  destruct (drain_spec w self k Hok Hs)
    as (l0 & w0 & Hd0 & Hok1 & Hl & _ & _ & _ & Hk1).
  rewrite Hd in Hd0. injection Hd0 as <- <-.
  pose proof (keeps_server _ _ _ Hk1 Hs) as Hs1.
  destruct (deliver_spec messages w1 self Hok1 Hs1) as (w2 & E & Hok2 & Hs2 & _).
  pose proof (deliver_detached messages _ _ _ _ _ Hok1 Hs1 Hfree Hl E) as Hl2.
  destruct (drain_spec w2 self k' Hok2 Hs2)
    as (l' & w3 & Hd3 & _ & _ & _ & _ & Hlist & _).
  exists w2, l', w3. split; [done|]. split; [done|]. split; [done|].
  by apply Hlist.
Qed.

Lemma drained_list_is_detached_witness :
  exists w2 l' w3,
    deliver 1 [agent_note 3; factory_reply 1]
      (snd (drain 1 "autogpt-agent" world_two_notes)) = (Ok tt, w2) /\
    list_at w2 4 = Some (queue_at world_two_notes "autogpt-agent") /\
    drain 1 "autogpt-agent" w2 = (Ok l', w3) /\
    list_at w3 4 = Some (queue_at world_two_notes "autogpt-agent").
Proof.
  apply (drained_list_is_detached world_two_notes 1 "autogpt-agent" 4
           (snd (drain 1 "autogpt-agent" world_two_notes))
           [agent_note 3; factory_reply 1] "autogpt-agent").
  - do 2 apply reach_add_to_queue. apply reach_construct, reach_class_body.
  - eapply is_server_lookup. vm_compute. reflexivity.
  - vm_compute. reflexivity.
Defined.

(** ** Construction *)

(** X10: constructing a server succeeds in every store the program can
    be in; the new instance is at an address that was no server, the
    servers there were stay servers, and no queue changes: a second
    server starts with the messages already queued. *)
Theorem construction_keeps_the_mailbox w :
  reachable w ->
  exists self w',
    FakeApplicationServer w = (Ok self, w') /\
    ~ is_server w self /\ is_server w' self /\
    (forall s, is_server w s -> is_server w' s) /\
    (forall k, queue_at w' k = queue_at w k) /\
    (forall k, queue_via self w' k = Some (queue_at w k)).
Proof.
  intros Hr. pose proof (reachable_mailbox_ok _ Hr) as Hok.
  destruct (FakeApplicationServer_spec w Hok)
    as (self & w' & E & Hok' & Hs & Hn & Hq & Hk).
  exists self, w'. split; [done|]. split; [done|]. split; [done|].
  split; [eauto using keeps_server|]. split; [done|].
  intros k. rewrite queue_via_class by done. by rewrite Hq.
Qed.

Lemma construction_keeps_the_mailbox_witness :
  exists self w',
    FakeApplicationServer world_two_notes = (Ok self, w') /\
    ~ is_server world_two_notes self /\ is_server w' self /\
    (forall s, is_server world_two_notes s -> is_server w' s) /\
    (forall k, queue_at w' k = queue_at world_two_notes k) /\
    (forall k, queue_via self w' k = Some (queue_at world_two_notes k)).
Proof.
  apply (construction_keeps_the_mailbox world_two_notes).
  do 2 apply reach_add_to_queue. apply reach_construct, reach_class_body.
Defined.

(** X11: in any store, a constructed server holds, under
    [_message_broker], a broker whose channel ["autogpt"] has the three
    listeners in the order of their registration, the server's own
    mailbox first, and, under [_user_emitter], an emitter of that broker
    on ["autogpt"] for the sender [("autogpt-user", USER)]. *)
Theorem constructed_server_wiring w :
  exists self b e w',
    FakeApplicationServer w = (Ok self, w') /\
    getattr self "_message_broker" w' = (Ok (VObj b), w') /\
    heap w' !! b = Some (OBroker {["autogpt" := server_listeners self]}) /\
    getattr self "_user_emitter" w' = (Ok (VObj e), w') /\
    heap w' !! e
    = Some (OEmitter b "autogpt" (mkSender "autogpt-user" USER)).
Proof.
  unfold FakeApplicationServer.
  rewrite (bind_ok _ _ _ _ _ (alloc_eq _ _)).
  set (self := fresh (dom (heap w))).
  destruct (__init___eq self (set_heap <[self := OInstance ∅]> w))
    as (b & e & Hb1 & He1 & Hbe & Hinit); [by lookups|].
  cbn [heap set_heap] in Hb1, He1.
  apply lookup_insert_None in Hb1 as [Hb Hsb].
  apply lookup_insert_None in He1 as [He Hse].
  rewrite (bind_ok _ _ _ _ _ Hinit). unfold ret.
  eexists self, b, e, _. split; [reflexivity|].
  split; [|split; [|split]].
  - eapply getattr_own; [> (lookups; reflexivity) ..].
  - lookups. reflexivity.
  - eapply getattr_own; [> (lookups; reflexivity) ..].
  - lookups. reflexivity.
Qed.

(** X12: of the listeners a server registers, only its own mailbox has
    a filter that can answer [True], and it does so exactly for the
    messages of agents and agent factories: on no message does the
    filter of the bootstrap or of the launch listener answer [True]. *)
Theorem only_the_mailbox_filter_matches self w :
  exists b w',
    _get_message_broker self w = (Ok b, w') /\
    heap w' !! b = Some (OBroker {["autogpt" := server_listeners self]}) /\
    forall l m,
      l ∈ server_listeners self ->
      (message_filter l m = Ok true <->
       listener l = HAddToQueue self /\
       role (sender (metadata m)) <> USER).
Proof.
  eexists _, _. split; [apply _get_message_broker_eq|].
  split; [by lookups|].
  intros l m Hl. unfold server_listeners in Hl.
  rewrite !elem_of_cons, elem_of_nil in Hl.
  destruct Hl as [->|[->|[->|[]]]]; simpl.
  - unfold MessageFilters.is_server_message, MessageFilters.is_agent_message,
      MessageFilters.is_agent_factory_message.
    destruct (role (sender (metadata m))); simpl; split;
      try done; intros [_ H]; done.
  - split; [|intros [[=] _]].
    intros H. by destruct (is_user_bootstrap_message_never_true m).
  - split; [|intros [[=] _]].
    intros H. by destruct (is_user_launch_message_never_true m).
Qed.

(** ** The feedback expression *)

Lemma list_pop_other_queues w k l x w' :
  mailbox_ok w -> bound w k l -> list_pop l w = (Ok x, w') ->
  forall k', k' <> k -> queue_at w' k' = queue_at w k'.
Proof.
  intros Hok Hb Hp k' Hk'.
  pose proof Hok as [(a0 & slots & Hc & Ha & Hl & Hinj) _].
  destruct (bound_inv _ _ _ Hb) as (a0' & slots' & Hc' & Ha' & Hk).
  assert (a0' = a0) as -> by congruence.
  assert (slots' = slots) as -> by congruence.
  destruct (Hl _ _ Hk) as [items Hi].
  unfold list_pop in Hp. rewrite Hi in Hp.
  destruct (last items); [|discriminate]. injection Hp as <- <-.
  assert (l <> a0) by congruence.
  unfold queue_at, peek, list_at. simpl. rewrite Hc.
  rewrite lookup_insert_ne by done. rewrite Ha.
  destruct (slots !! k') as [l'|] eqn:Hl'; [|done].
  rewrite lookup_insert_ne; [done|]. intros ->. apply Hk'. eauto.
Qed.

(** X13: [self.message_queue["autogpt-agent"].pop()] takes the message
    appended last and leaves the earlier ones and every other queue; on
    an empty queue it raises [IndexError], changes no queue, and leaves
    the key bound even if it was not before. *)
Theorem pop_agent_message_behaviour w self :
  reachable w -> is_server w self ->
  (forall items x,
     queue_at w "autogpt-agent" = items ++ [x] ->
     exists w',
       pop_agent_message self w = (Ok x, w') /\
       queue_at w' "autogpt-agent" = items /\
       forall k, k <> "autogpt-agent" -> queue_at w' k = queue_at w k) /\
  (queue_at w "autogpt-agent" = [] ->
   exists w',
     pop_agent_message self w = (Raise IndexError, w') /\
     is_Some (binding w' "autogpt-agent") /\
     forall k, queue_at w' k = queue_at w k).
Proof.
  intros Hr Hs. pose proof (reachable_mailbox_ok _ Hr) as Hok.
  destruct (queue_ref_spec w self "autogpt-agent" Hok Hs)
    as (l & w1 & Hqr & Hok1 & Hb & _ & Hq1 & _ & _).
  unfold pop_agent_message. rewrite (bind_ok _ _ _ _ _ Hqr). split.
  - intros items x Hq. rewrite <- Hq1 in Hq.
    destruct (list_pop_last w1 _ l items x Hok1 Hb Hq) as (w' & Hp & Hq').
    exists w'. split; [done|]. split; [done|].
    intros k Hk. rewrite (list_pop_other_queues _ _ _ _ _ Hok1 Hb Hp) by done.
    apply Hq1.
  - intros Hq. rewrite <- Hq1 in Hq.
    exists w1. split; [by apply (list_pop_empty w1 "autogpt-agent")|].
    split; [by exists l|]. done.
Qed.

Lemma pop_agent_message_behaviour_witness :
  (forall items x,
     queue_at world_two_notes "autogpt-agent" = items ++ [x] ->
     exists w',
       pop_agent_message 1 world_two_notes = (Ok x, w') /\
       queue_at w' "autogpt-agent" = items /\
       forall k, k <> "autogpt-agent" ->
                 queue_at w' k = queue_at world_two_notes k) /\
  (queue_at world_two_notes "autogpt-agent" = [] ->
   exists w',
     pop_agent_message 1 world_two_notes = (Raise IndexError, w') /\
     is_Some (binding w' "autogpt-agent") /\
     forall k, queue_at w' k = queue_at world_two_notes k).
Proof.
  apply (pop_agent_message_behaviour world_two_notes 1).
  - do 2 apply reach_add_to_queue. apply reach_construct, reach_class_body.
  - eapply is_server_lookup. vm_compute. reflexivity.
Defined.

(** ** The workspace path *)

Lemma substring_whole (s : string) :
  String.substring 0 (String.length s) s = s.
Proof. induction s as [|c s IH]; simpl; [done|]. by rewrite IH. Qed.

(** X18: the workspace path of an agent name is the name behind the
    20 characters of ["~/autogpt_workspace/"]: the name is read back from
    the path, and two names with one path are the same name. *)
Theorem workspace_path_round_trip (agent_name : string) :
  String.prefix "~/autogpt_workspace/"
    (_get_workspace_path_from_agent_name agent_name) = true /\
  String.length (_get_workspace_path_from_agent_name agent_name)
  = (20 + String.length agent_name)%nat /\
  String.substring 20 (String.length agent_name)
    (_get_workspace_path_from_agent_name agent_name) = agent_name /\
  forall other,
    _get_workspace_path_from_agent_name agent_name
    = _get_workspace_path_from_agent_name other ->
    agent_name = other.
Proof.
  unfold _get_workspace_path_from_agent_name. simpl.
  split; [|split; [|split]].
  - by destruct agent_name.
  - reflexivity.
  - apply substring_whole.
  - intros other H. by simplify_eq.
Qed.
